(** * Falcor megakernel path tracer: core payload protocol

    A shallow embedding of [Source/RenderPasses/PathTracer/Megakernel/PathTracer.slang]:
    the shadow-ray primitive, the next-event and scatter-ray generators and
    the hit and miss handlers, over IEEE-754 binary32 arithmetic.

    Shader scalars of type [float] are values of [spec_float] at precision
    24 and maximal exponent 128, multiplied and added with round-to-nearest-
    even.  Routines that live in other shader modules (material sampling,
    light sampling, environment probe, MIS heuristic, the hardware ray
    dispatch) are collected in the class [Collaborators]; the functions of
    the file are defined once and for all over any instance of it.
    [traceScatterRay], a wrapper of the payload codec around the dispatch,
    is not part of the embedding.

    The module [SceneRenderPass] embeds
    [Framework/Source/RenderPasses/SceneRenderPass.cpp] as the calls the
    pass makes on the rendering interface, in order. *)

From Stdlib Require Import ZArith NArith Bool List Lia.
From Stdlib Require Import Floats.SpecFloat.
From Stdlib Require String.
Import String.StringSyntax.
Import ListNotations.

Local Open Scope Z_scope.

(** ** Binary32 scalars *)

Definition float : Type := spec_float.

Module F32.

Definition prec : Z := 24.
Definition emax : Z := 128.

Definition zero : float := S754_zero false.
Definition one : float := S754_finite false 8388608 (-23).
Definition pinf : float := S754_infinity false.

Definition mul (a b : float) : float := SFmul prec emax a b.
Definition add (a b : float) : float := SFadd prec emax a b.

(** [a < b], [a > b] and [a == b]: all false as soon as one side is NaN. *)
Definition ltb (a b : float) : bool := SFltb a b.
Definition gtb (a b : float) : bool := SFltb b a.
Definition eqb (a b : float) : bool := SFeqb a b.

Definition isnan (a : float) : bool :=
  match a with S754_nan => true | _ => false end.

Definition isinf (a : float) : bool :=
  match a with S754_infinity _ => true | _ => false end.

Definition iszero (a : float) : bool :=
  match a with S754_zero _ => true | _ => false end.

(** Neither zero, nor infinite, nor NaN. *)
Definition isfinite_nonzero (a : float) : bool :=
  match a with S754_finite _ _ _ => true | _ => false end.

(** The intrinsic [min]: a NaN operand is dropped in favour of the other. *)
Definition min (a b : float) : float :=
  if isnan a then b
  else if isnan b then a
  else if ltb b a then b else a.

(** Well-formed binary32 datum: canonical mantissa, exponent in range. *)
Definition valid (a : float) : bool := valid_binary prec emax a.

End F32.

(** ** Three-component vectors *)

Record float3 : Type := mkFloat3 { vx : float; vy : float; vz : float }.

Record float2 : Type := mkFloat2 { ux : float; uy : float }.

Record float4 : Type := mkFloat4 { xyz : float3; w : float }.

Definition splat (a : float) : float3 := mkFloat3 a a a.

(** [a * b] on two vectors, and [a * s] with a scalar. *)
Definition mul3 (a b : float3) : float3 :=
  mkFloat3 (F32.mul (vx a) (vx b)) (F32.mul (vy a) (vy b)) (F32.mul (vz a) (vz b)).

Definition mul3s (a : float3) (s : float) : float3 :=
  mkFloat3 (F32.mul (vx a) s) (F32.mul (vy a) s) (F32.mul (vz a) s).

Definition dot (a b : float3) : float :=
  F32.add (F32.add (F32.mul (vx a) (vx b)) (F32.mul (vy a) (vy b)))
          (F32.mul (vz a) (vz b)).

(** [any(v > 0.f)], [all(v == 0.f)], [any(isnan(v))]. *)
Definition any_gt0 (v : float3) : bool :=
  F32.gtb (vx v) F32.zero || F32.gtb (vy v) F32.zero || F32.gtb (vz v) F32.zero.

Definition all_eq0 (v : float3) : bool :=
  F32.eqb (vx v) F32.zero && F32.eqb (vy v) F32.zero && F32.eqb (vz v) F32.zero.

Definition any_isnan (v : float3) : bool :=
  F32.isnan (vx v) || F32.isnan (vy v) || F32.isnan (vz v).

(** Some channel differs from zero ([v != 0.f] holds for a NaN channel). *)
Definition any_nonzero (v : float3) : bool :=
  negb (all_eq0 v).

(** Every channel is a well-formed binary32 datum. *)
Definition valid3 (v : float3) : bool :=
  F32.valid (vx v) && F32.valid (vy v) && F32.valid (vz v).

(** The factors of a product are a zero and an infinity, in either order. *)
Definition zero_times_inf (a b : float) : bool :=
  (F32.iszero a && F32.isinf b) || (F32.isinf a && F32.iszero b).

Definition zero_times_inf3 (a b : float3) : bool :=
  zero_times_inf (vx a) (vx b) || zero_times_inf (vy a) (vy b) ||
  zero_times_inf (vz a) (vz b).

(** ** Static configuration

    The [k...] names are compile-time constants of the shader program;
    [M_PI] and [kMinCosTheta] come from included headers. *)

Record StaticParams : Type := mkStaticParams {
  kUseBRDFSampling : bool;
  kUseMIS : bool;
  kUseEnvLight : bool;
  kUseEmissiveLights : bool;
  kUseEmissiveSampler : bool;
  kMaxBounces : Z;
  kMinCosTheta : float;
  M_PI : float;
  kRayTypeShadow : Z;
  hitProgramCount : Z
}.

(** ** Ray descriptors and payloads *)

Record RayDesc : Type := mkRayDesc {
  Origin : float3;
  Direction : float3;
  TMin : float;
  TMax : float
}.

Record ShadowRayData : Type := mkShadowRayData { visible : bool }.

Module BRDFSample.
Record t : Type := mk { dir : float3; thp : float3; pdf : float }.
End BRDFSample.

Module SceneLightSample.
Record t : Type := mk {
  dir : float3;
  Li : float3;
  rayDir : float3;
  rayDistance : float
}.
End SceneLightSample.

Definition uint_modulus : Z := 2 ^ 32.

(** [x + 1] on a 32-bit unsigned integer. *)
Definition uint_succ (x : Z) : Z := (x + 1) mod uint_modulus.

Definition RAY_FLAG_ACCEPT_FIRST_HIT_AND_END_SEARCH : Z := 4.
Definition RAY_FLAG_SKIP_CLOSEST_HIT_SHADER : Z := 8.

(** One call of the hardware dispatch, as the caller wrote it. *)
Record Dispatch : Type := mkDispatch {
  rayFlags : Z;
  instanceInclusionMask : Z;
  hitIdx : Z;
  hitStride : Z;
  missIdx : Z;
  ray : RayDesc
}.

(** ** Collaborators

    The routines the file imports from the scene, shading and sampling
    modules.  Routines with an [inout SampleGenerator] argument return the
    advanced generator next to their result. *)

Class Collaborators : Type := {
  ShadingData : Type;
  SampleGenerator : Type;
  TriangleHit : Type;
  PathTracerParams : Type;
  EnvProbe : Type;
  EmissiveLightSampler : Type;

  (** fields of [ShadingData] read by this file *)
  sd_N : ShadingData -> float3;
  sd_NdotV : ShadingData -> float;
  sd_emissive : ShadingData -> float3;
  computeNewRayOrigin : ShadingData -> float3;

  sampleSceneLights :
    PathTracerParams -> EnvProbe -> EmissiveLightSampler -> ShadingData ->
    float3 -> SampleGenerator -> SceneLightSample.t * SampleGenerator;
  evalBRDFCosine : ShadingData -> float3 -> float3;
  evalBRDF : ShadingData -> float3 -> float3;
  sampleBRDF : ShadingData -> SampleGenerator -> BRDFSample.t * SampleGenerator;
  sampleNext2D : SampleGenerator -> float2 * SampleGenerator;
  sampleHemisphereCosine : ShadingData -> float2 -> float3 * float;

  evalEnvProbe : EnvProbe -> float3 -> float3;
  evalEnvProbePdf : EnvProbe -> float3 -> float;
  getEnvLightSelectionPdf : float;
  getEmissiveLightSelectionPdf : float;
  emissiveSampler_evalPdf :
    EmissiveLightSampler -> float3 -> float3 -> TriangleHit -> float;
  evalMIS : PathTracerParams -> float -> float -> float;

  (** what the hit and miss programs of a dispatch do to a shadow payload *)
  TraceRay_shadow : Dispatch -> ShadowRayData -> ShadowRayData
}.

(** Modelled from the spec: the shadow-ray miss program and the dispatch
    that runs it, which live in the ray-tracing program file.  The payload
    keeps its value when an occluder is found within the ray's extent (the
    closest-hit program is skipped) and is set visible by the miss
    response. *)
Definition shadowMiss (p : ShadowRayData) : ShadowRayData :=
  mkShadowRayData true.

Definition dispatchShadow (occluded : RayDesc -> bool)
    (d : Dispatch) (p : ShadowRayData) : ShadowRayData :=
  if occluded (ray d) then p else shadowMiss p.

Section PathTracer.

Context {C : Collaborators}.
Variable cfg : StaticParams.

(** Shared path tracer data. *)
Record PathTracerData : Type := mkPathTracerData {
  params : PathTracerParams;
  envProbe : EnvProbe;
  emissiveSampler : EmissiveLightSampler
}.

(** The scatter-ray payload in its unpacked form. *)
Record ScatterRayData : Type := mkScatterRayData {
  origin : float3;
  direction : float3;
  thp : float3;
  Le : float3;
  pdf : float;
  normal : float3;
  pathLength : Z;
  shadowRay : float4;
  Lr : float3;
  terminated : bool;
  sg : SampleGenerator
}.

Definition set_origin v (r : ScatterRayData) :=
  mkScatterRayData v (direction r) (thp r) (Le r) (pdf r) (normal r)
    (pathLength r) (shadowRay r) (Lr r) (terminated r) (sg r).
Definition set_direction v (r : ScatterRayData) :=
  mkScatterRayData (origin r) v (thp r) (Le r) (pdf r) (normal r)
    (pathLength r) (shadowRay r) (Lr r) (terminated r) (sg r).
Definition set_thp v (r : ScatterRayData) :=
  mkScatterRayData (origin r) (direction r) v (Le r) (pdf r) (normal r)
    (pathLength r) (shadowRay r) (Lr r) (terminated r) (sg r).
Definition set_Le v (r : ScatterRayData) :=
  mkScatterRayData (origin r) (direction r) (thp r) v (pdf r) (normal r)
    (pathLength r) (shadowRay r) (Lr r) (terminated r) (sg r).
Definition set_pdf v (r : ScatterRayData) :=
  mkScatterRayData (origin r) (direction r) (thp r) (Le r) v (normal r)
    (pathLength r) (shadowRay r) (Lr r) (terminated r) (sg r).
Definition set_normal v (r : ScatterRayData) :=
  mkScatterRayData (origin r) (direction r) (thp r) (Le r) (pdf r) v
    (pathLength r) (shadowRay r) (Lr r) (terminated r) (sg r).
Definition set_pathLength v (r : ScatterRayData) :=
  mkScatterRayData (origin r) (direction r) (thp r) (Le r) (pdf r) (normal r)
    v (shadowRay r) (Lr r) (terminated r) (sg r).
Definition set_shadowRay v (r : ScatterRayData) :=
  mkScatterRayData (origin r) (direction r) (thp r) (Le r) (pdf r) (normal r)
    (pathLength r) v (Lr r) (terminated r) (sg r).
Definition set_Lr v (r : ScatterRayData) :=
  mkScatterRayData (origin r) (direction r) (thp r) (Le r) (pdf r) (normal r)
    (pathLength r) (shadowRay r) v (terminated r) (sg r).
Definition set_terminated v (r : ScatterRayData) :=
  mkScatterRayData (origin r) (direction r) (thp r) (Le r) (pdf r) (normal r)
    (pathLength r) (shadowRay r) (Lr r) v (sg r).
Definition set_sg v (r : ScatterRayData) :=
  mkScatterRayData (origin r) (direction r) (thp r) (Le r) (pdf r) (normal r)
    (pathLength r) (shadowRay r) (Lr r) (terminated r) v.

(** *** Tracing state

    The only state outside a payload that these functions touch: the
    logger's count of traced rays, and the dispatches handed to the
    hardware, newest first. *)
Record World : Type := mkWorld {
  traceCount : N;
  dispatched : list Dispatch
}.

Definition Trace (A : Type) : Type := World -> A * World.

Definition ret {A} (a : A) : Trace A := fun w => (a, w).

Definition bind {A B} (m : Trace A) (k : A -> Trace B) : Trace B :=
  fun w => let (a, w') := m w in k a w'.

Notation "x <- m ;; k" := (bind m (fun x => k))
  (at level 61, m at next level, right associativity).
Notation "m ;;; k" := (bind m (fun _ => k))
  (at level 61, right associativity).

(** Modelled from the spec: the logger's [logTraceRay], which lives in the
    logging module; it counts one traced ray. *)
Definition logTraceRay : Trace unit :=
  fun w => (tt, mkWorld (N.succ (traceCount w)) (dispatched w)).

(** [TraceRay] on a shadow payload: the dispatch is handed over and the
    payload comes back as the hit and miss programs left it. *)
Definition TraceRay (d : Dispatch) (p : ShadowRayData) : Trace ShadowRayData :=
  fun w => (TraceRay_shadow d p, mkWorld (traceCount w) (d :: dispatched w)).

(** Traces a shadow ray towards a light source. *)
Definition traceShadowRay (origin dir : float3) (distance : float)
    (valid : bool) : Trace bool :=
  let ray := mkRayDesc origin dir F32.zero
               (if valid then distance else F32.zero) in
  let rayData := mkShadowRayData false in
  let rayFlags := Z.lor RAY_FLAG_SKIP_CLOSEST_HIT_SHADER
                        RAY_FLAG_ACCEPT_FIRST_HIT_AND_END_SEARCH in
  rayData <- TraceRay (mkDispatch rayFlags 255 (kRayTypeShadow cfg)
                         (hitProgramCount cfg) (kRayTypeShadow cfg) ray)
                      rayData ;;
  if negb valid then ret false
  else logTraceRay ;;; ret (visible rayData).

(** Evaluates direct illumination at hit point. *)
Definition evalDirect (pt : PathTracerData) (sd : ShadingData)
    (rayOrigin : float3) (sg0 : SampleGenerator)
    : Trace (float3 * SampleGenerator) :=
  let (ls, sg1) := sampleSceneLights (params pt) (envProbe pt)
                     (emissiveSampler pt) sd rayOrigin sg0 in
  let valid := any_gt0 (SceneLightSample.Li ls) in
  V <- traceShadowRay rayOrigin (SceneLightSample.rayDir ls)
         (SceneLightSample.rayDistance ls) valid ;;
  ret (if V then mul3 (evalBRDFCosine sd (SceneLightSample.dir ls))
                      (SceneLightSample.Li ls)
       else splat F32.zero, sg1).

(** Processes a hit point to generate a shadow ray for sampling the
    light sources. *)
Definition generateShadowRay (pt : PathTracerData) (sd : ShadingData)
    (rayOrigin : float3) (rayData : ScatterRayData) : ScatterRayData :=
  let (ls, sg1) := sampleSceneLights (params pt) (envProbe pt)
                     (emissiveSampler pt) sd rayOrigin (sg rayData) in
  let rayData := set_sg sg1 rayData in
  let valid := any_gt0 (SceneLightSample.Li ls) in
  let rayData :=
    set_shadowRay (mkFloat4 (SceneLightSample.rayDir ls)
                            (SceneLightSample.rayDistance ls)) rayData in
  set_Lr (if valid
          then mul3 (mul3 (evalBRDFCosine sd (SceneLightSample.dir ls))
                          (SceneLightSample.Li ls))
                    (thp rayData)
          else splat F32.zero) rayData.

(** The direction, throughput factor and pdf drawn for the next segment,
    with the advanced generator: the two branches of
    [generateScatterRay] up to their writes into the payload. *)
Record ScatterSample : Type := mkScatterSample {
  ss_dir : float3;
  ss_weight : float3;
  ss_pdf : float;
  ss_sg : SampleGenerator
}.

Definition scatterSample (sd : ShadingData) (sg0 : SampleGenerator)
    : ScatterSample :=
  if kUseBRDFSampling cfg then
    let (result, sg1) := sampleBRDF sd sg0 in
    mkScatterSample (BRDFSample.dir result) (BRDFSample.thp result)
      (BRDFSample.pdf result) sg1
  else
    let (u, sg1) := sampleNext2D sg0 in
    let (dir, pdf0) := sampleHemisphereCosine sd u in
    let NdotL := dot (sd_N sd) dir in
    let pdf1 := if F32.ltb (F32.min (sd_NdotV sd) NdotL) (kMinCosTheta cfg)
                then F32.zero else pdf0 in
    mkScatterSample dir (mul3s (evalBRDF sd dir) (M_PI cfg)) pdf1 sg1.

(** [generateScatterRay] up to its two assertions. *)
Definition scatterSegment (sd : ShadingData) (rayOrigin : float3)
    (rayData : ScatterRayData) : ScatterRayData :=
  let rayData := set_origin rayOrigin rayData in
  let s := scatterSample sd (sg rayData) in
  let rayData := set_sg (ss_sg s) rayData in
  let rayData := set_direction (ss_dir s) rayData in
  let rayData := set_thp (mul3 (thp rayData) (ss_weight s)) rayData in
  set_pdf (if kUseMIS cfg then ss_pdf s else F32.zero) rayData.

(** [assert(!any(isnan(rayData.thp)))] and [assert(!isnan(rayData.pdf))]. *)
Definition assert_thp (rayData : ScatterRayData) : bool :=
  negb (any_isnan (thp rayData)).
Definition assert_pdf (rayData : ScatterRayData) : bool :=
  negb (F32.isnan (pdf rayData)).

(** Whether both assertions of [generateScatterRay] pass on this call. *)
Definition generateScatterRay_asserts (sd : ShadingData)
    (rayOrigin : float3) (rayData : ScatterRayData) : bool :=
  let rayData := scatterSegment sd rayOrigin rayData in
  assert_thp rayData && assert_pdf rayData.

(** Processes a hit point to generate a scatter ray or terminate. *)
Definition generateScatterRay (pt : PathTracerData) (sd : ShadingData)
    (rayOrigin : float3) (rayData : ScatterRayData) : ScatterRayData :=
  let rayData := scatterSegment sd rayOrigin rayData in
  let rayData := if kUseMIS cfg then set_normal (sd_N sd) rayData
                 else rayData in
  if all_eq0 (thp rayData) then set_terminated true rayData else rayData.

(** Handles the case when a path misses the scene. *)
Definition handleMiss (pt : PathTracerData) (rayData : ScatterRayData)
    : ScatterRayData :=
  let rayData := set_terminated true rayData in
  if kUseEnvLight cfg && kUseMIS cfg then
    let dir := direction rayData in
    let lightPdf := F32.mul (evalEnvProbePdf (envProbe pt) dir)
                            getEnvLightSelectionPdf in
    let misWeight := evalMIS (params pt) (pdf rayData) lightPdf in
    let Le0 := mul3s (evalEnvProbe (envProbe pt) dir) misWeight in
    set_Le (mul3 (thp rayData) Le0) rayData
  else rayData.

(** Statically determined: is the emissive term resolved at hits? *)
Definition computeEmissive : bool :=
  kUseEmissiveLights cfg &&
  (negb (kUseEmissiveSampler cfg) ||
   (kUseEmissiveSampler cfg && kUseMIS cfg)).

(** The MIS weight applied to the emission at a hit. *)
Definition emissiveMisWeight (pt : PathTracerData) (hit : TriangleHit)
    (rayData : ScatterRayData) : float :=
  if kUseEmissiveSampler cfg && kUseMIS cfg then
    let lightPdf :=
      F32.mul (emissiveSampler_evalPdf (emissiveSampler pt)
                 (origin rayData) (normal rayData) hit)
              getEmissiveLightSelectionPdf in
    evalMIS (params pt) (pdf rayData) lightPdf
  else F32.one.

(** The first conditional of [handleHit]. *)
Definition resolveEmissive (pt : PathTracerData) (sd : ShadingData)
    (hit : TriangleHit) (rayData : ScatterRayData) : ScatterRayData :=
  if computeEmissive && any_gt0 (sd_emissive sd) then
    let misWeight := emissiveMisWeight pt hit rayData in
    set_Le (mul3s (mul3 (thp rayData) (sd_emissive sd)) misWeight) rayData
  else rayData.

(** The guard of the second conditional of [handleHit]. *)
Definition continuesPath (computeIndirect : bool)
    (rayData : ScatterRayData) : bool :=
  computeIndirect && (pathLength rayData <? kMaxBounces cfg).

(** Handles the case when a path hits a surface. *)
Definition handleHit (pt : PathTracerData) (sd : ShadingData)
    (hit : TriangleHit) (computeIndirect : bool)
    (rayData : ScatterRayData) : ScatterRayData :=
  let rayData := resolveEmissive pt sd hit rayData in
  if continuesPath computeIndirect rayData then
    let rayOrigin := computeNewRayOrigin sd in
    let rayData := generateShadowRay pt sd rayOrigin rayData in
    let rayData := generateScatterRay pt sd rayOrigin rayData in
    set_pathLength (uint_succ (pathLength rayData)) rayData
  else rayData.

End PathTracer.


(** ** A constant scene

    An instance of the collaborators whose routines return fixed values
    and whose sample generator counts its draws; used to run the functions
    on concrete inputs. *)

Record DemoShading : Type := mkDemoShading {
  demo_N : float3;
  demo_NdotV : float;
  demo_emissive : float3
}.

Record DemoScene : Type := mkDemoScene {
  demo_light : SceneLightSample.t;
  demo_brdfSample : BRDFSample.t;
  demo_brdf : float3;
  demo_hemisphere : float3 * float;
  demo_env : float3;
  demo_lightPdf : float;
  demo_mis : float;
  demo_occluded : RayDesc -> bool
}.

Definition demoCollaborators (s : DemoScene) : Collaborators := {|
  ShadingData := DemoShading;
  SampleGenerator := N;
  TriangleHit := unit;
  PathTracerParams := unit;
  EnvProbe := unit;
  EmissiveLightSampler := unit;
  sd_N := demo_N;
  sd_NdotV := demo_NdotV;
  sd_emissive := demo_emissive;
  computeNewRayOrigin := fun _ => splat F32.zero;
  sampleSceneLights := fun _ _ _ _ _ g => (demo_light s, N.succ g);
  evalBRDFCosine := fun _ _ => demo_brdf s;
  evalBRDF := fun _ _ => demo_brdf s;
  sampleBRDF := fun _ g => (demo_brdfSample s, N.succ g);
  sampleNext2D := fun g => (mkFloat2 F32.zero F32.zero, N.succ g);
  sampleHemisphereCosine := fun _ _ => demo_hemisphere s;
  evalEnvProbe := fun _ _ => demo_env s;
  evalEnvProbePdf := fun _ _ => demo_lightPdf s;
  getEnvLightSelectionPdf := F32.one;
  getEmissiveLightSelectionPdf := F32.one;
  emissiveSampler_evalPdf := fun _ _ _ _ => demo_lightPdf s;
  evalMIS := fun _ _ _ => demo_mis s;
  TraceRay_shadow := dispatchShadow (demo_occluded s)
|}.

Definition f32_half : float := S754_finite false 8388608 (-24).
Definition f32_two : float := S754_finite false 8388608 (-22).
Definition f32_minus_one : float := S754_finite true 8388608 (-23).
(** 3.14159274: the binary32 nearest to pi. *)
Definition f32_pi : float := S754_finite false 13176795 (-22).
(** 1e-6f *)
Definition f32_1em6 : float := S754_finite false 8796093 (-43).

(** FLT_MAX *)
Definition f32_max : float := S754_finite false 16777215 104.

Definition demoConfig (brdfSampling mis envLight emissive emissiveSampler : bool)
    (maxBounces : Z) : StaticParams :=
  mkStaticParams brdfSampling mis envLight emissive emissiveSampler maxBounces
    f32_1em6 f32_pi 1 2.

(** Light of radiance 2 straight above, BRDF sample of weight 1/2 and pdf
    1, BRDF value 1/2, hemisphere sample straight up with pdf 1/2, white
    environment, light pdf and MIS weight 1/2, nothing occluded. *)
Definition demoSceneWith (sample : BRDFSample.t) (brdf : float3) : DemoScene :=
  mkDemoScene
    (SceneLightSample.mk (mkFloat3 F32.zero F32.zero F32.one) (splat f32_two)
       (mkFloat3 F32.zero F32.zero F32.one) f32_two)
    sample
    brdf
    (mkFloat3 F32.zero F32.zero F32.one, f32_half)
    (splat F32.one)
    f32_half
    f32_half
    (fun _ => false).

Definition demoSample (weight : float3) : BRDFSample.t :=
  BRDFSample.mk (mkFloat3 F32.zero F32.zero F32.one) weight F32.one.

Definition demoScene : DemoScene :=
  demoSceneWith (demoSample (splat f32_half)) (splat f32_half).

(** The material sampler rejects its sample: weight 0. *)
Definition demoSceneRejecting : DemoScene :=
  demoSceneWith (demoSample (splat F32.zero)) (splat f32_half).

(** The material sampler returns an infinite weight. *)
Definition demoSceneInfiniteSample : DemoScene :=
  demoSceneWith (demoSample (splat F32.pinf)) (splat f32_half).

(** The BRDF evaluates to the largest finite binary32. *)
Definition demoSceneHugeBRDF : DemoScene :=
  demoSceneWith (demoSample (splat f32_half)) (splat f32_max).

Definition demoShadingWith (NdotV : float) (emissive : float3) : DemoShading :=
  mkDemoShading (mkFloat3 F32.zero F32.zero F32.one) NdotV emissive.

Definition demoShading : DemoShading :=
  demoShadingWith F32.one (splat F32.zero).

(** A payload at path length 0 with pdf 1 and nothing accumulated. *)
Definition demoPayload (s : DemoScene) (thp0 : float3) (terminated0 : bool)
    : ScatterRayData (C := demoCollaborators s) :=
  mkScatterRayData (C := demoCollaborators s)
    (splat F32.zero) (mkFloat3 F32.zero F32.zero F32.one)
    thp0 (splat F32.zero) F32.one
    (mkFloat3 F32.zero F32.zero F32.one) 0
    (mkFloat4 (splat F32.zero) F32.zero) (splat F32.zero) terminated0 0%N.

Definition demoData (s : DemoScene) : PathTracerData (C := demoCollaborators s) :=
  mkPathTracerData (C := demoCollaborators s) tt tt tt.


(** The light sampler finds no light: radiance 0 in every channel. *)
Definition demoSceneDark : DemoScene :=
  mkDemoScene
    (SceneLightSample.mk (mkFloat3 F32.zero F32.zero F32.one) (splat F32.zero)
       (mkFloat3 F32.zero F32.zero F32.one) f32_two)
    (demoSample (splat f32_half))
    (splat f32_half)
    (mkFloat3 F32.zero F32.zero F32.one, f32_half)
    (splat F32.one)
    f32_half
    f32_half
    (fun _ => false).


(** * The scene render pass

    [SceneRenderPass] draws the scene into a frame buffer whose attachments
    come from the render graph.  The pass is embedded as a function from
    its members and from what the interface answers (the textures of the
    render data, the depth attachment and size of the frame buffer) to its
    members afterwards and the list of calls it makes, in program order. *)

Module SceneRenderPass.

Local Open Scope string_scope.

Definition kDepth : String.string := "depth".
Definition kColor : String.string := "color".
Definition kMotionVecs : String.string := "motionVecs".
Definition kNormals : String.string := "normals".
Definition kVisBuffer : String.string := "visibilityBuffer".

(** The label of the colour widget in [renderUI]. *)
Definition clearColorLabel : String.string := "Clear color".

Local Close Scope string_scope.

(** ** Render-graph reflection *)

Inductive FieldType : Type := Input | Output | InputOutput.

(** The resource formats and bind flags this file names. *)
Inductive ResourceFormat : Type := RGBA8Unorm | RG16Float | D32Float.
Inductive ResourceBindFlags : Type := DepthStencil.

(** A declared field; format and bind flags are [None] while the pass
    leaves them at their default. *)
Record Field : Type := mkField {
  fieldName : String.string;
  fieldType : FieldType;
  fieldOptional : bool;
  fieldFormat : option ResourceFormat;
  fieldBindFlags : option ResourceBindFlags
}.

Definition addInput (name : String.string) : Field :=
  mkField name Input false None None.
Definition addOutput (name : String.string) : Field :=
  mkField name Output false None None.
Definition addInputOutput (name : String.string) : Field :=
  mkField name InputOutput false None None.

(** [setFlags(RenderPassReflection::Field::Flags::Optional)] *)
Definition setFlagsOptional (f : Field) : Field :=
  mkField (fieldName f) (fieldType f) true (fieldFormat f) (fieldBindFlags f).
Definition setFormat (fmt : ResourceFormat) (f : Field) : Field :=
  mkField (fieldName f) (fieldType f) (fieldOptional f) (Some fmt)
    (fieldBindFlags f).
Definition setBindFlags (b : ResourceBindFlags) (f : Field) : Field :=
  mkField (fieldName f) (fieldType f) (fieldOptional f) (fieldFormat f)
    (Some b).

(** The fields [reflect] declares on the reflector, in order. *)
Definition reflect : list Field :=
  [ addInput kVisBuffer;
    setBindFlags DepthStencil (setFlagsOptional (addInputOutput kDepth));
    addInputOutput kColor;
    setFormat RGBA8Unorm (addOutput kNormals);
    setFormat RG16Float (addOutput kMotionVecs) ].

(** ** Depth-stencil state *)

Inductive ComparisonFunc : Type := LessEqual.

Record DepthStencilDesc : Type := mkDepthStencilDesc {
  depthTest : bool;
  depthWriteMask : bool;
  stencilTest : bool;
  depthFunc : ComparisonFunc
}.

(** The state the constructor builds and keeps in [mpDsNoDepthWrite]. *)
Definition mpDsNoDepthWrite : DepthStencilDesc :=
  mkDepthStencilDesc true false false LessEqual.

(** ** The user interface *)

Inductive GuiCall : Type :=
| BeginGroup (name : String.string)
| AddRgbaColor (label : String.string)
| EndGroup.

(** [renderUI]; [beginGroup] is the answer of the GUI to opening a group. *)
Definition renderUI (uiGroup : option String.string)
    (beginGroup : String.string -> bool) : list GuiCall :=
  let '(entered, opening) :=
    match uiGroup with
    | None => (true, [])
    | Some g => (beginGroup g, [BeginGroup g])
    end in
  if entered then
    opening ++ [AddRgbaColor clearColorLabel] ++
    match uiGroup with Some _ => [EndGroup] | None => [] end
  else opening.

Section Pass.

Context {Texture Scene SceneRenderer : Type}.

(** [SceneRenderer::create] and [Texture::create2D]. *)
Variable createSceneRenderer : Scene -> option SceneRenderer.
Variable create2D :
  Z -> Z -> ResourceFormat -> Z -> Z -> ResourceBindFlags -> Texture.

(** [FboAttachmentType::Color] and [FboAttachmentType::Depth]. *)
Variables FboAttachmentType_Color FboAttachmentType_Depth : Z.

(** The members of the pass that its methods assign. *)
Record Members : Type := mkMembers {
  mpSceneRenderer : option SceneRenderer;
  mClearFlags : Z
}.

(** What the interface answers during one [execute]: the textures of the
    render data by name, and the depth attachment and size of the frame
    buffer, read in [initDepth] and again when the scene is drawn. *)
Record Answers : Type := mkAnswers {
  getTexture : String.string -> option Texture;
  getDepthStencilTexture : option Texture;
  initWidth : Z;
  initHeight : Z;
  drawWidth : Z;
  drawHeight : Z
}.

Inductive Call : Type :=
| GetTexture (name : String.string)
| SetDepthStencilState (ds : option DepthStencilDesc)
| AttachDepthStencilTarget (t : Texture)
| AttachColorTarget (t : option Texture) (rtIndex : Z)
| ClearRtv (rtIndex : Z) (color : float4)
| SetRenderTargetDim (width height : Z)
| SetTexture (name : String.string) (t : option Texture)
| SetFbo
| PushGraphicsState
| PushGraphicsVars
| RenderScene (r : SceneRenderer)
| PopGraphicsState
| PopGraphicsVars.

Definition setScene (pScene : option Scene) (m : Members) : Members :=
  let m := mkMembers None (mClearFlags m) in
  match pScene with
  | Some s => mkMembers (createSceneRenderer s) (mClearFlags m)
  | None => m
  end.

Definition initDepth (a : Answers) (m : Members) : Members * list Call :=
  match getTexture a kDepth with
  | Some pTexture =>
      (mkMembers (mpSceneRenderer m) FboAttachmentType_Color,
       [ GetTexture kDepth;
         SetDepthStencilState (Some mpDsNoDepthWrite);
         AttachDepthStencilTarget pTexture ])
  | None =>
      (mkMembers (mpSceneRenderer m)
         (Z.lor FboAttachmentType_Color FboAttachmentType_Depth),
       [ GetTexture kDepth; SetDepthStencilState None ] ++
       match getDepthStencilTexture a with
       | None =>
           let pDepth := create2D (initWidth a) (initHeight a) D32Float 1 1
                           DepthStencil in
           [ AttachDepthStencilTarget pDepth ]
       | Some _ => []
       end)
  end.

Definition vec4_zero : float4 := mkFloat4 (splat F32.zero) F32.zero.

Definition execute (a : Answers) (m : Members) : Members * list Call :=
  let '(m, depthCalls) := initDepth a m in
  let targetCalls :=
    [ GetTexture kColor; AttachColorTarget (getTexture a kColor) 0;
      GetTexture kNormals; AttachColorTarget (getTexture a kNormals) 1;
      GetTexture kMotionVecs; AttachColorTarget (getTexture a kMotionVecs) 2;
      ClearRtv 1 vec4_zero;
      ClearRtv 2 vec4_zero ] in
  let drawCalls :=
    match mpSceneRenderer m with
    | Some renderer =>
        [ SetRenderTargetDim (drawWidth a) (drawHeight a);
          GetTexture kVisBuffer;
          SetTexture kVisBuffer (getTexture a kVisBuffer);
          SetFbo;
          PushGraphicsState;
          PushGraphicsVars;
          RenderScene renderer;
          PopGraphicsState;
          PopGraphicsVars ]
    | None => []
    end in
  (m, depthCalls ++ targetCalls ++ drawCalls).

(** The names a list of calls looks up in the render data. *)
Fixpoint lookups (calls : list Call) : list String.string :=
  match calls with
  | [] => []
  | GetTexture name :: rest => name :: lookups rest
  | _ :: rest => lookups rest
  end.

(** Pushes and pops of the graphics state and of the graphics variables
    nest: no pop without a push before it, the scene drawn only while both
    are pushed, and nothing left pushed at the end. *)
Fixpoint bracketed (states vars : nat) (calls : list Call) : bool :=
  match calls with
  | [] => Nat.eqb states 0 && Nat.eqb vars 0
  | PushGraphicsState :: rest => bracketed (S states) vars rest
  | PushGraphicsVars :: rest => bracketed states (S vars) rest
  | PopGraphicsState :: rest =>
      match states with
      | O => false
      | S n => bracketed n vars rest
      end
  | PopGraphicsVars :: rest =>
      match vars with
      | O => false
      | S n => bracketed states n rest
      end
  | RenderScene _ :: rest =>
      negb (Nat.eqb states 0) && negb (Nat.eqb vars 0) &&
      bracketed states vars rest
  | _ :: rest => bracketed states vars rest
  end.

End Pass.

(** A frame for running the pass on concrete inputs: textures, scenes and
    renderers are numbered, every field but the depth is present in the
    render data, the frame buffer is 640 x 480 and has no depth
    attachment. *)
Definition demoAnswers (depth : option nat) : Answers (Texture := nat) :=
  mkAnswers
    (fun name => if String.eqb name kDepth then depth else Some 7%nat)
    None 640 480 640 480.

Definition demoMembers : Members (SceneRenderer := nat) := mkMembers None 0.

Definition demoCreate2D (width height : Z) (fmt : ResourceFormat)
    (arraySize mipLevels : Z) (bind : ResourceBindFlags) : nat := 9%nat.

End SceneRenderPass.


(** * Facts on binary32 arithmetic *)

Section Binary32Facts.

Lemma fexp_eq x : fexp F32.prec F32.emax x = Z.max (x - 24) (-149).
Proof. reflexivity. Qed.

Lemma digits2_pos_size p : digits2_pos p = Pos.size p.
Proof. induction p; simpl; congruence. Qed.

Lemma Zdigits2_nonneg m : 0 <= Zdigits2 m.
Proof. destruct m; simpl; lia. Qed.

(** A positive [m] of [d] binary digits lies in [[2^(d-1), 2^d)]. *)
Lemma Zdigits2_bounds m :
  0 < m -> 2 ^ (Zdigits2 m - 1) <= m < 2 ^ Zdigits2 m.
Proof.
  destruct m as [|p|p]; try lia. intros _. simpl Zdigits2.
  rewrite digits2_pos_size. split.
  - pose proof (Pos.size_le p) as H.
    assert (E : Z.pos (2 ^ Pos.size p) = 2 * 2 ^ (Z.pos (Pos.size p) - 1)).
    { rewrite Pos2Z.inj_pow. rewrite <- Z.pow_succ_r by lia. f_equal. lia. }
    apply Pos2Z.pos_le_pos in H. rewrite E in H. lia.
  - pose proof (Pos.size_gt p) as H. apply Pos2Z.pos_lt_pos in H.
    rewrite Pos2Z.inj_pow in H. exact H.
Qed.

Lemma Zdigits2_unique m d :
  0 < m -> 2 ^ (d - 1) <= m < 2 ^ d -> Zdigits2 m = d.
Proof.
  intros Hm [Hl Hu]. pose proof (Zdigits2_bounds m Hm) as [Bl Bu].
  pose proof (Zdigits2_nonneg m) as Hn.
  assert (Hd : 0 <= d).
  { destruct (Z_lt_le_dec d 0) as [Hneg|]; [|assumption].
    rewrite Z.pow_neg_r in Hu by assumption. lia. }
  destruct (Z.lt_trichotomy (Zdigits2 m) d) as [H|[H|H]]; [|assumption|].
  - assert (2 ^ Zdigits2 m <= 2 ^ (d - 1)) by (apply Z.pow_le_mono_r; lia). lia.
  - assert (2 ^ d <= 2 ^ (Zdigits2 m - 1)) by (apply Z.pow_le_mono_r; lia). lia.
Qed.

Lemma Zdigits2_div m n :
  0 < m -> 0 <= n -> Zdigits2 (m / 2 ^ n) = Z.max 0 (Zdigits2 m - n).
Proof.
  intros Hm Hn. pose proof (Zdigits2_bounds m Hm) as [Bl Bu].
  pose proof (Zdigits2_nonneg m) as Hd.
  assert (P : 0 < 2 ^ n) by (apply Z.pow_pos_nonneg; lia).
  destruct (Z_lt_le_dec n (Zdigits2 m)) as [H|H].
  - rewrite Z.max_r by lia.
    assert (Q : 0 < m / 2 ^ n).
    { apply Z.div_str_pos. split; [assumption|].
      apply Z.le_trans with (2 ^ (Zdigits2 m - 1)); [|assumption].
      apply Z.pow_le_mono_r; lia. }
    apply Zdigits2_unique; [assumption|]. split.
    + apply Z.div_le_lower_bound; [assumption|].
      rewrite <- Z.pow_add_r by lia.
      replace (n + (Zdigits2 m - n - 1)) with (Zdigits2 m - 1) by lia. assumption.
    + apply Z.div_lt_upper_bound; [assumption|].
      rewrite <- Z.pow_add_r by lia.
      replace (n + (Zdigits2 m - n)) with (Zdigits2 m) by lia. assumption.
  - rewrite Z.max_l by lia. rewrite Z.div_small; [reflexivity|].
    split; [lia|]. apply Z.lt_le_trans with (2 ^ Zdigits2 m); [assumption|].
    apply Z.pow_le_mono_r; lia.
Qed.

(** Adding one to a mantissa gains a digit only on reaching a power of two. *)
Lemma Zdigits2_succ m :
  0 <= m ->
  Zdigits2 (m + 1) = Zdigits2 m \/
  (Zdigits2 (m + 1) = Zdigits2 m + 1 /\ m + 1 = 2 ^ Zdigits2 m).
Proof.
  intros Hm. destruct (Z.eq_dec m 0) as [->|Hz].
  - right. split; reflexivity.
  - assert (Hp : 0 < m) by lia. pose proof (Zdigits2_bounds m Hp) as [Bl Bu].
    pose proof (Zdigits2_nonneg m) as Hd.
    destruct (Z.eq_dec (m + 1) (2 ^ Zdigits2 m)) as [E|E].
    + right. split; [|assumption]. apply Zdigits2_unique; [lia|].
      replace (Zdigits2 m + 1 - 1) with (Zdigits2 m) by lia.
      rewrite Z.pow_add_r by lia. change (2 ^ 1) with 2. lia.
    + left. apply Zdigits2_unique; lia.
Qed.

Lemma shr_1_m mrs : 0 <= shr_m mrs -> shr_m (shr_1 mrs) = shr_m mrs / 2.
Proof.
  destruct mrs as [m r s]; simpl.
  destruct m as [|[p|p|]|p]; simpl; intros H; try lia.
  - reflexivity.
  - apply Z.div_unique with 1; lia.
  - apply Z.div_unique with 0; lia.
  - reflexivity.
Qed.

Lemma shr_1_nonneg mrs : 0 <= shr_m mrs -> 0 <= shr_m (shr_1 mrs).
Proof.
  intros H. rewrite shr_1_m by assumption. apply Z.div_pos; lia.
Qed.

(** [p] right shifts divide the mantissa by [2^p]. *)
Lemma iter_pos_shr_1_m p : forall mrs,
  0 <= shr_m mrs ->
  shr_m (iter_pos shr_1 p mrs) = shr_m mrs / 2 ^ Z.pos p.
Proof.
  induction p as [p IH|p IH|]; intros mrs H; simpl iter_pos.
  - assert (H1 : 0 <= shr_m (shr_1 mrs)) by now apply shr_1_nonneg.
    assert (P : 0 < 2 ^ Z.pos p) by (apply Z.pow_pos_nonneg; lia).
    assert (H2 : 0 <= shr_m (iter_pos shr_1 p (shr_1 mrs))).
    { rewrite IH by assumption. apply Z.div_pos; assumption. }
    rewrite IH, IH, shr_1_m by assumption.
    rewrite !Z.div_div by lia. f_equal.
    rewrite <- Z.pow_add_r by lia. rewrite <- (Z.pow_1_r 2) at 1.
    rewrite <- Z.pow_add_r by lia. f_equal. lia.
  - assert (P : 0 < 2 ^ Z.pos p) by (apply Z.pow_pos_nonneg; lia).
    assert (H2 : 0 <= shr_m (iter_pos shr_1 p mrs)).
    { rewrite IH by assumption. apply Z.div_pos; assumption. }
    rewrite IH, IH by assumption.
    rewrite !Z.div_div by lia. f_equal.
    rewrite <- Z.pow_add_r by lia. f_equal. lia.
  - rewrite shr_1_m by assumption. reflexivity.
Qed.

Lemma shr_record_of_loc_m m l : shr_m (shr_record_of_loc m l) = m.
Proof. destruct l as [|[]]; reflexivity. Qed.

(** The exponent-driven shift: the mantissa loses [n] low bits and the
    exponent gains [n], where [n] is the distance to the target exponent. *)
Lemma shr_fexp_spec m e l :
  0 <= m ->
  let n := Z.max 0 (fexp F32.prec F32.emax (Zdigits2 m + e) - e) in
  shr_m (fst (shr_fexp F32.prec F32.emax m e l)) = m / 2 ^ n /\
  snd (shr_fexp F32.prec F32.emax m e l) = e + n.
Proof.
  intros Hm n. unfold shr_fexp, shr. subst n.
  destruct (fexp F32.prec F32.emax (Zdigits2 m + e) - e) as [|p|p] eqn:E;
    simpl fst; simpl snd.
  - rewrite shr_record_of_loc_m, Z.div_1_r. split; lia.
  - rewrite iter_pos_shr_1_m by (rewrite shr_record_of_loc_m; assumption).
    rewrite shr_record_of_loc_m. rewrite Z.max_r by lia. split; reflexivity.
  - rewrite shr_record_of_loc_m. rewrite Z.max_l by lia.
    rewrite Z.div_1_r. split; lia.
Qed.

Lemma round_nearest_even_cases m l :
  round_nearest_even m l = m \/ round_nearest_even m l = m + 1.
Proof.
  destruct l as [|[]]; simpl; auto. destruct (Z.even m); auto.
Qed.

(** Rounding a positive mantissa whose exponent does not exceed the target
    exponent yields a well-formed binary32 datum. *)
Lemma binary_round_aux_valid sx m e l :
  0 < m -> e <= fexp F32.prec F32.emax (Zdigits2 m + e) ->
  F32.valid (binary_round_aux F32.prec F32.emax sx m e l) = true.
Proof.
  intros Hm He. unfold binary_round_aux.
  pose proof (shr_fexp_spec m e l (Z.lt_le_incl _ _ Hm)) as S1. cbv zeta in S1.
  destruct (shr_fexp F32.prec F32.emax m e l) as [mrs1 e1].
  simpl fst in S1; simpl snd in S1. destruct S1 as [M1 E1].
  set (n := Z.max 0 (fexp F32.prec F32.emax (Zdigits2 m + e) - e)) in *.
  assert (Hn : 0 <= n) by (subst n; lia).
  assert (D1 : Zdigits2 (shr_m mrs1) = Z.max 0 (Zdigits2 m - n)).
  { rewrite M1. apply Zdigits2_div; assumption. }
  assert (N1 : 0 <= shr_m mrs1).
  { rewrite M1. apply Z.div_pos; [lia|]. apply Z.pow_pos_nonneg; lia. }
  set (m2 := round_nearest_even (shr_m mrs1) (loc_of_shr_record mrs1)).
  assert (N2 : 0 <= m2).
  { subst m2.
    destruct (round_nearest_even_cases (shr_m mrs1) (loc_of_shr_record mrs1))
      as [->| ->]; lia. }
  assert (D2 : Zdigits2 m2 = Zdigits2 (shr_m mrs1) \/
               (Zdigits2 m2 = Zdigits2 (shr_m mrs1) + 1 /\
                m2 = 2 ^ Zdigits2 (shr_m mrs1))).
  { subst m2.
    destruct (round_nearest_even_cases (shr_m mrs1) (loc_of_shr_record mrs1))
      as [->| ->].
    - now left.
    - apply Zdigits2_succ. assumption. }
  pose proof (shr_fexp_spec m2 e1 loc_Exact N2) as S2. cbv zeta in S2.
  destruct (shr_fexp F32.prec F32.emax m2 e1 loc_Exact) as [mrs2 e2].
  simpl fst in S2; simpl snd in S2. destruct S2 as [M2 E2].
  pose proof (Zdigits2_nonneg m) as Dm.
  subst n. rewrite !fexp_eq in *.
  destruct (shr_m mrs2) as [|q|q] eqn:Q; try reflexivity.
  unfold F32.valid.
  destruct (e2 <=? F32.emax - F32.prec) eqn:B; [|reflexivity].
  simpl valid_binary. unfold bounded. rewrite B, andb_true_r.
  unfold canonical_mantissa. apply Z.eqb_eq. rewrite fexp_eq.
  change (Z.pos (digits2_pos q)) with (Zdigits2 (Z.pos q)).
  destruct D2 as [D2|[D2 P2]].
  - (* the rounded mantissa has as many digits as before *)
    assert (Z0 : Z.max 0 (Z.max (Zdigits2 m2 + e1 - 24) (-149) - e1) = 0) by lia.
    rewrite Z0 in M2, E2. change (2 ^ 0) with 1 in M2.
    rewrite Z.div_1_r in M2. rewrite M2. lia.
  - destruct (Z.eq_dec (Zdigits2 m2) 25) as [T|T].
    + (* the carry reached bit 24: one more shift *)
      assert (Z1 : Z.max 0 (Z.max (Zdigits2 m2 + e1 - 24) (-149) - e1) = 1) by lia.
      rewrite Z1 in M2, E2.
      assert (D24 : Zdigits2 (shr_m mrs1) = 24) by lia.
      rewrite D24 in P2. rewrite P2 in M2.
      change (2 ^ 24 / 2 ^ 1) with (2 ^ 23) in M2.
      rewrite M2. change (Zdigits2 (2 ^ 23)) with 24. lia.
    + assert (Z0 : Z.max 0 (Z.max (Zdigits2 m2 + e1 - 24) (-149) - e1) = 0) by lia.
      rewrite Z0 in M2, E2. change (2 ^ 0) with 1 in M2.
      rewrite Z.div_1_r in M2. rewrite M2. lia.
Qed.

(** Rounding a non-negative mantissa never produces a NaN. *)
Lemma binary_round_aux_not_nan sx m e l :
  0 <= m -> F32.isnan (binary_round_aux F32.prec F32.emax sx m e l) = false.
Proof.
  intros Hm. unfold binary_round_aux.
  pose proof (shr_fexp_spec m e l Hm) as S1. cbv zeta in S1.
  destruct (shr_fexp F32.prec F32.emax m e l) as [mrs1 e1].
  simpl fst in S1. destruct S1 as [M1 _].
  assert (N1 : 0 <= shr_m mrs1).
  { rewrite M1. apply Z.div_pos; [lia|]. apply Z.pow_pos_nonneg; lia. }
  set (m2 := round_nearest_even (shr_m mrs1) (loc_of_shr_record mrs1)).
  assert (N2 : 0 <= m2).
  { subst m2.
    destruct (round_nearest_even_cases (shr_m mrs1) (loc_of_shr_record mrs1))
      as [->| ->]; lia. }
  pose proof (shr_fexp_spec m2 e1 loc_Exact N2) as S2. cbv zeta in S2.
  destruct (shr_fexp F32.prec F32.emax m2 e1 loc_Exact) as [mrs2 e2].
  simpl fst in S2. destruct S2 as [M2 _].
  assert (N3 : 0 <= shr_m mrs2).
  { rewrite M2. apply Z.div_pos; [lia|]. apply Z.pow_pos_nonneg; lia. }
  destruct (shr_m mrs2) as [|q|q]; try reflexivity.
  - destruct (e2 <=? _); reflexivity.
  - lia.
Qed.

(** A product is NaN exactly when a factor is, or when a zero meets an
    infinity. *)
Lemma mul_isnan a b :
  F32.isnan (F32.mul a b) =
  F32.isnan a || F32.isnan b || zero_times_inf a b.
Proof.
  destruct a as [sa|sa| |sa ma ea], b as [sb|sb| |sb mb eb]; try reflexivity.
  unfold F32.mul; simpl SFmul. rewrite binary_round_aux_not_nan by lia.
  reflexivity.
Qed.

(** Binary32 data are closed under multiplication. *)
Lemma mul_valid a b :
  F32.valid a = true -> F32.valid b = true -> F32.valid (F32.mul a b) = true.
Proof.
  destruct a as [sa|sa| |sa ma ea], b as [sb|sb| |sb mb eb]; try reflexivity.
  unfold F32.valid at 1 2. simpl valid_binary. unfold bounded, canonical_mantissa.
  intros Ha Hb. apply andb_prop in Ha, Hb. destruct Ha as [Ca _], Hb as [Cb _].
  apply Z.eqb_eq in Ca, Cb. rewrite fexp_eq in Ca, Cb.
  unfold F32.mul. simpl SFmul. apply binary_round_aux_valid; [lia|].
  rewrite fexp_eq.
  change (Z.pos (digits2_pos ma)) with (Zdigits2 (Z.pos ma)) in Ca.
  change (Z.pos (digits2_pos mb)) with (Zdigits2 (Z.pos mb)) in Cb.
  pose proof (Zdigits2_bounds (Z.pos ma) ltac:(lia)) as [La Ua].
  pose proof (Zdigits2_bounds (Z.pos mb) ltac:(lia)) as [Lb Ub].
  pose proof (Zdigits2_bounds (Z.pos (ma * mb)) ltac:(lia)) as [Lp Up].
  pose proof (Zdigits2_nonneg (Z.pos ma)). pose proof (Zdigits2_nonneg (Z.pos mb)).
  pose proof (Zdigits2_nonneg (Z.pos (ma * mb))).
  set (da := Zdigits2 (Z.pos ma)) in *. set (db := Zdigits2 (Z.pos mb)) in *.
  set (dp := Zdigits2 (Z.pos (ma * mb))) in *.
  assert (da >= 1 /\ db >= 1) as [? ?].
  { split.
    - destruct (Z.eq_dec da 0) as [E|]; [|lia]. rewrite E in Ua. simpl in Ua. lia.
    - destruct (Z.eq_dec db 0) as [E|]; [|lia]. rewrite E in Ub. simpl in Ub. lia. }
  assert (da + db - 1 <= dp).
  { destruct (Z_lt_le_dec dp (da + db - 1)) as [K|K]; [|assumption]. exfalso.
    assert (2 ^ dp <= 2 ^ (da - 1 + (db - 1))) by (apply Z.pow_le_mono_r; lia).
    rewrite Z.pow_add_r in * by lia.
    rewrite Pos2Z.inj_mul in Up.
    assert (2 ^ (da - 1) * 2 ^ (db - 1) <= Z.pos ma * Z.pos mb).
    { apply Z.mul_le_mono_nonneg; try assumption; apply Z.pow_nonneg; lia. }
    lia. }
  lia.
Qed.

(** Multiplying a binary32 datum by [1.f] returns it unchanged. *)
Lemma mul_one_r a : F32.valid a = true -> F32.mul a F32.one = a.
Proof.
  destruct a as [s|s| |s m e]; try reflexivity.
  - destruct s; reflexivity.
  - destruct s; reflexivity.
  - unfold F32.valid, valid_binary, bounded, canonical_mantissa. intros H.
    apply andb_prop in H. destruct H as [Hc Hb]. apply Z.eqb_eq in Hc.
    unfold F32.mul, F32.one, SFmul. rewrite Pos.mul_comm, xorb_false_r.
    unfold binary_round_aux, shr_fexp.
    cbn [Pos.mul Zdigits2 digits2_pos shr_record_of_loc].
    match goal with
    | |- context [shr _ _ ?n] => replace n with 23
    end.
    2:{ match goal with
        | |- context [fexp _ _ ?x] =>
            replace x with (Z.pos (digits2_pos m) + e) by lia
        end.
        rewrite Hc. lia. }
    cbn [shr iter_pos shr_1 shr_m shr_r shr_s orb loc_of_shr_record
         round_nearest_even Zdigits2 shr_record_of_loc].
    replace (e + -23 + 23) with e by lia.
    rewrite Hc, Z.sub_diag. cbn [shr shr_m].
    rewrite Hb. reflexivity.
Qed.

End Binary32Facts.

(** * Properties of the path tracer core *)

Section PathTracerFacts.

Context {C : Collaborators}.
Variable cfg : StaticParams.

(** ** Vector lemmas *)

Lemma mul3s_one_r v : valid3 v = true -> mul3s v F32.one = v.
Proof.
  destruct v as [a b c]. unfold valid3, mul3s; simpl. intros H.
  apply andb_prop in H. destruct H as [H Hc].
  apply andb_prop in H. destruct H as [Ha Hb].
  now rewrite !mul_one_r.
Qed.

Lemma mul3_valid u v :
  valid3 u = true -> valid3 v = true -> valid3 (mul3 u v) = true.
Proof.
  destruct u as [a b c], v as [a' b' c']. unfold valid3, mul3; simpl.
  intros H H'.
  apply andb_prop in H. destruct H as [H Hc].
  apply andb_prop in H. destruct H as [Ha Hb].
  apply andb_prop in H'. destruct H' as [H' Hc'].
  apply andb_prop in H'. destruct H' as [Ha' Hb'].
  now rewrite !mul_valid.
Qed.

Lemma mul3_isnan u v :
  any_isnan (mul3 u v) =
  any_isnan u || any_isnan v || zero_times_inf3 u v.
Proof.
  destruct u as [a b c], v as [a' b' c'].
  unfold any_isnan, zero_times_inf3, mul3; simpl. rewrite !mul_isnan.
  destruct (F32.isnan a), (F32.isnan b), (F32.isnan c),
    (F32.isnan a'), (F32.isnan b'), (F32.isnan c'),
    (zero_times_inf a a'), (zero_times_inf b b'), (zero_times_inf c c');
    reflexivity.
Qed.

Lemma mul3s_finite_isnan v s :
  F32.isfinite_nonzero s = true -> any_isnan (mul3s v s) = any_isnan v.
Proof.
  intros Hs. destruct v as [a b c]. unfold any_isnan, mul3s; simpl.
  rewrite !mul_isnan.
  assert (Z : forall t, zero_times_inf t s = false).
  { intros t. destruct s; try discriminate. unfold zero_times_inf; simpl.
    now rewrite !andb_false_r. }
  assert (N : F32.isnan s = false) by (destruct s; try discriminate; reflexivity).
  now rewrite !Z, N, !orb_false_r.
Qed.

(** ** What each generator leaves alone *)

Lemma generateShadowRay_frame pt sd o r :
  let r' := generateShadowRay pt sd o r in
  origin r' = origin r /\ direction r' = direction r /\ thp r' = thp r /\
  Le r' = Le r /\ pdf r' = pdf r /\ normal r' = normal r /\
  pathLength r' = pathLength r /\ terminated r' = terminated r.
Proof.
  unfold generateShadowRay.
  destruct (sampleSceneLights _ _ _ _ _ _) as [ls sg1]. simpl. tauto.
Qed.

Lemma generateShadowRay_sg pt sd o r :
  sg (generateShadowRay pt sd o r) =
  snd (sampleSceneLights (params pt) (envProbe pt) (emissiveSampler pt)
         sd o (sg r)).
Proof.
  unfold generateShadowRay.
  destruct (sampleSceneLights _ _ _ _ _ _) as [ls sg1]. reflexivity.
Qed.

Lemma scatterSegment_fields sd o r :
  let s := scatterSample cfg sd (sg r) in
  let r' := scatterSegment cfg sd o r in
  origin r' = o /\ direction r' = ss_dir s /\
  thp r' = mul3 (thp r) (ss_weight s) /\
  pdf r' = (if kUseMIS cfg then ss_pdf s else F32.zero) /\
  sg r' = ss_sg s /\
  Le r' = Le r /\ normal r' = normal r /\ pathLength r' = pathLength r /\
  shadowRay r' = shadowRay r /\ Lr r' = Lr r /\ terminated r' = terminated r.
Proof. unfold scatterSegment; simpl. tauto. Qed.

Lemma generateScatterRay_fields pt sd o r :
  let s := scatterSample cfg sd (sg r) in
  let r' := generateScatterRay cfg pt sd o r in
  origin r' = o /\ direction r' = ss_dir s /\
  thp r' = mul3 (thp r) (ss_weight s) /\
  pdf r' = (if kUseMIS cfg then ss_pdf s else F32.zero) /\
  normal r' = (if kUseMIS cfg then sd_N sd else normal r) /\
  sg r' = ss_sg s /\
  Le r' = Le r /\ pathLength r' = pathLength r /\
  shadowRay r' = shadowRay r /\ Lr r' = Lr r /\
  terminated r' = terminated r || all_eq0 (mul3 (thp r) (ss_weight s)).
Proof.
  unfold generateScatterRay, scatterSegment.
  destruct (kUseMIS cfg); simpl;
    destruct (all_eq0 (mul3 (thp r) (ss_weight (scatterSample cfg sd (sg r)))));
    simpl; rewrite ?orb_true_r, ?orb_false_r; tauto.
Qed.

Lemma resolveEmissive_frame pt sd hit r :
  let r' := resolveEmissive cfg pt sd hit r in
  origin r' = origin r /\ direction r' = direction r /\ thp r' = thp r /\
  pdf r' = pdf r /\ normal r' = normal r /\ pathLength r' = pathLength r /\
  shadowRay r' = shadowRay r /\ Lr r' = Lr r /\
  terminated r' = terminated r /\ sg r' = sg r.
Proof.
  unfold resolveEmissive.
  destruct (computeEmissive cfg && any_gt0 (sd_emissive sd)); simpl; tauto.
Qed.

(** ** The miss handler *)

(** C2: [handleMiss] always sets the terminated flag; it stores
    throughput x environment radiance x MIS weight into [Le], the weight
    combining the stored BRDF pdf with the environment pdf scaled by the
    light-selection pdf, exactly when both the environment light and MIS
    are enabled, and leaves [Le] as it was otherwise. *)
Theorem handleMiss_terminates_and_weights pt rayData :
  let r' := handleMiss cfg pt rayData in
  terminated r' = true /\
  Le r' =
    (if kUseEnvLight cfg && kUseMIS cfg then
       let lightPdf :=
         F32.mul (evalEnvProbePdf (envProbe pt) (direction rayData))
                 getEnvLightSelectionPdf in
       let misWeight := evalMIS (params pt) (pdf rayData) lightPdf in
       mul3 (thp rayData)
            (mul3s (evalEnvProbe (envProbe pt) (direction rayData)) misWeight)
     else Le rayData).
Proof.
  unfold handleMiss. destruct (kUseEnvLight cfg && kUseMIS cfg); simpl; auto.
Qed.

(** ** The shadow-ray primitive *)

(** C3: a dummy shadow ray ([valid = false]) reports "not visible" whatever
    the dispatch does to the payload and leaves the trace counter alone; a
    valid one is dispatched with [TMax = distance], counts one traced ray,
    and reports the [visible] field of the payload that was handed over as
    not visible. *)
Theorem traceShadowRay_valid_and_dummy origin dir distance w :
  let dummy := traceShadowRay cfg origin dir distance false w in
  let real := traceShadowRay cfg origin dir distance true w in
  (fst dummy = false /\
   traceCount (snd dummy) = traceCount w /\
   exists d, dispatched (snd dummy) = d :: dispatched w /\
             TMax (ray d) = F32.zero) /\
  (traceCount (snd real) = N.succ (traceCount w) /\
   exists d, dispatched (snd real) = d :: dispatched w /\
             TMax (ray d) = distance /\
             Origin (ray d) = origin /\ Direction (ray d) = dir /\
             fst real = visible (TraceRay_shadow d (mkShadowRayData false))).
Proof.
  unfold traceShadowRay, bind, TraceRay, ret, logTraceRay; simpl.
  split.
  - repeat split. eexists. split; reflexivity.
  - split; [reflexivity|]. eexists. repeat split.
Qed.

(** With the miss program of the specification as the dispatch, a valid
    shadow ray is visible exactly when no occluder is found. *)
Lemma dispatchShadow_visible occluded d :
  visible (dispatchShadow occluded d (mkShadowRayData false)) =
  negb (occluded (ray d)).
Proof. unfold dispatchShadow. destruct (occluded (ray d)); reflexivity. Qed.

(** ** The scatter-ray generator *)

(** C4: after [generateScatterRay], in the BRDF-sampling branch as in the
    cosine-hemisphere branch, the payload's pdf is the sampled pdf when MIS
    is enabled and 0 when it is not, and the payload's normal is the
    shading normal when MIS is enabled and untouched when it is not. *)
Theorem generateScatterRay_pdf_normal pt sd rayOrigin rayData :
  let r' := generateScatterRay cfg pt sd rayOrigin rayData in
  let sampledPdf :=
    if kUseBRDFSampling cfg then
      BRDFSample.pdf (fst (sampleBRDF sd (sg rayData)))
    else
      let u := fst (sampleNext2D (sg rayData)) in
      let dir := fst (sampleHemisphereCosine sd u) in
      if F32.ltb (F32.min (sd_NdotV sd) (dot (sd_N sd) dir)) (kMinCosTheta cfg)
      then F32.zero
      else snd (sampleHemisphereCosine sd u) in
  pdf r' = (if kUseMIS cfg then sampledPdf else F32.zero) /\
  normal r' = (if kUseMIS cfg then sd_N sd else normal rayData).
Proof.
  cbv zeta.
  destruct (generateScatterRay_fields pt sd rayOrigin rayData)
    as (_ & _ & _ & Hp & Hn & _).
  rewrite Hp, Hn. split; [|reflexivity].
  unfold scatterSample. destruct (kUseBRDFSampling cfg).
  - destruct (sampleBRDF sd (sg rayData)) as [res g]. reflexivity.
  - destruct (sampleNext2D (sg rayData)) as [u g]. simpl fst.
    destruct (sampleHemisphereCosine sd u) as [d p]. reflexivity.
Qed.

(** C5: in the cosine-weighted hemisphere branch (BRDF sampling disabled)
    the throughput is multiplied by [evalBRDF(sd, dir) * M_PI], and whenever
    [min(NdotV, NdotL) < kMinCosTheta] the sampled pdf, and with it the
    payload's pdf, is 0. *)
Theorem generateScatterRay_cosine_fallback pt sd rayOrigin rayData
    (Hfallback : kUseBRDFSampling cfg = false) :
  let r' := generateScatterRay cfg pt sd rayOrigin rayData in
  let dir := fst (sampleHemisphereCosine sd (fst (sampleNext2D (sg rayData)))) in
  let NdotL := dot (sd_N sd) dir in
  direction r' = dir /\
  thp r' = mul3 (thp rayData) (mul3s (evalBRDF sd dir) (M_PI cfg)) /\
  (F32.ltb (F32.min (sd_NdotV sd) NdotL) (kMinCosTheta cfg) = true ->
   ss_pdf (scatterSample cfg sd (sg rayData)) = F32.zero /\
   pdf r' = F32.zero).
Proof.
  cbv zeta.
  destruct (generateScatterRay_fields pt sd rayOrigin rayData)
    as (_ & Hd & Ht & Hp & _).
  rewrite Hd, Ht, Hp. unfold scatterSample. rewrite Hfallback.
  destruct (sampleNext2D (sg rayData)) as [u g]. simpl fst.
  destruct (sampleHemisphereCosine sd u) as [d p]. simpl.
  split; [reflexivity|]. split; [reflexivity|].
  intros Hreject. rewrite Hreject. split; [reflexivity|].
  now destruct (kUseMIS cfg).
Qed.

(** C6: if the throughput is exactly zero in every channel after
    [generateScatterRay], the payload is flagged as terminated. *)
Theorem generateScatterRay_zero_throughput_terminates pt sd rayOrigin rayData :
  let r' := generateScatterRay cfg pt sd rayOrigin rayData in
  all_eq0 (thp r') = true -> terminated r' = true.
Proof.
  cbv zeta.
  destruct (generateScatterRay_fields pt sd rayOrigin rayData)
    as (_ & _ & Ht & _ & _ & _ & _ & _ & _ & _ & Hterm).
  rewrite Ht, Hterm. intros ->. apply orb_true_r.
Qed.

(** C9, as amended: when the entry throughput has no NaN channel and the
    material routines return no NaN (the sampled throughput and pdf in the
    BRDF branch; the BRDF value and the hemisphere pdf in the fallback branch,
    where [M_PI] is an ordinary non-zero number), the two assertions of
    [generateScatterRay] pass exactly when no channel multiplies a zero by
    an infinity; and then the payload leaves with no NaN in its throughput
    and a pdf that is not NaN. *)
Theorem generateScatterRay_asserts_characterised pt sd rayOrigin rayData
    (Hentry : any_isnan (thp rayData) = false)
    (Hbrdf : kUseBRDFSampling cfg = true ->
             let result := fst (sampleBRDF sd (sg rayData)) in
             any_isnan (BRDFSample.thp result) = false /\
             F32.isnan (BRDFSample.pdf result) = false)
    (Hcosine : kUseBRDFSampling cfg = false ->
               let s := sampleHemisphereCosine sd
                          (fst (sampleNext2D (sg rayData))) in
               any_isnan (evalBRDF sd (fst s)) = false /\
               F32.isnan (snd s) = false /\
               F32.isfinite_nonzero (M_PI cfg) = true) :
  let weight := ss_weight (scatterSample cfg sd (sg rayData)) in
  let r' := generateScatterRay cfg pt sd rayOrigin rayData in
  (generateScatterRay_asserts cfg sd rayOrigin rayData = true <->
   zero_times_inf3 (thp rayData) weight = false) /\
  (any_isnan (thp r') = false /\ F32.isnan (pdf r') = false <->
   zero_times_inf3 (thp rayData) weight = false).
Proof.
  cbv zeta.
  destruct (generateScatterRay_fields pt sd rayOrigin rayData)
    as (_ & _ & Ht & Hp & _).
  destruct (scatterSegment_fields sd rayOrigin rayData)
    as (_ & _ & Ht' & Hp' & _).
  unfold generateScatterRay_asserts, assert_thp, assert_pdf.
  rewrite Ht, Hp, Ht', Hp'. clear Ht Hp Ht' Hp'.
  assert (Hs : any_isnan (ss_weight (scatterSample cfg sd (sg rayData))) = false
               /\ F32.isnan (ss_pdf (scatterSample cfg sd (sg rayData))) = false).
  { unfold scatterSample. destruct (kUseBRDFSampling cfg).
    - specialize (Hbrdf eq_refl). cbv zeta in Hbrdf.
      destruct (sampleBRDF sd (sg rayData)) as [res g]. exact Hbrdf.
    - specialize (Hcosine eq_refl). cbv zeta in Hcosine.
      destruct (sampleNext2D (sg rayData)) as [u g]. simpl fst in Hcosine.
      destruct (sampleHemisphereCosine sd u) as [d p].
      destruct Hcosine as (Hb & Hpdf & Hpi). simpl in Hb, Hpdf. simpl.
      rewrite mul3s_finite_isnan by assumption. split; [assumption|].
      destruct (F32.ltb _ _); [reflexivity|assumption]. }
  destruct Hs as [Hw Hpdf].
  assert (Hq : F32.isnan (if kUseMIS cfg
                          then ss_pdf (scatterSample cfg sd (sg rayData))
                          else F32.zero) = false).
  { destruct (kUseMIS cfg); [assumption|reflexivity]. }
  rewrite Hq, mul3_isnan, Hentry, Hw. simpl.
  destruct (zero_times_inf3 _ _); simpl; intuition congruence.
Qed.

(** C10: the terminated flag is monotone: a payload that enters
    [generateShadowRay], [generateScatterRay], [handleHit] or [handleMiss]
    with the flag set leaves it with the flag set. *)
Theorem terminated_monotone pt sd hit computeIndirect rayOrigin rayData
    (Hterm : terminated rayData = true) :
  terminated (generateShadowRay pt sd rayOrigin rayData) = true /\
  terminated (generateScatterRay cfg pt sd rayOrigin rayData) = true /\
  terminated (handleHit cfg pt sd hit computeIndirect rayData) = true /\
  terminated (handleMiss cfg pt rayData) = true.
Proof.
  assert (Hshadow : forall o r, terminated r = true ->
            terminated (generateShadowRay pt sd o r) = true).
  { intros o r H.
    destruct (generateShadowRay_frame pt sd o r) as (_&_&_&_&_&_&_&E).
    congruence. }
  assert (Hscatter : forall o r, terminated r = true ->
            terminated (generateScatterRay cfg pt sd o r) = true).
  { intros o r H.
    destruct (generateScatterRay_fields pt sd o r) as (_&_&_&_&_&_&_&_&_&_&E).
    rewrite E, H. reflexivity. }
  repeat split; auto.
  - unfold handleHit.
    assert (H0 : terminated (resolveEmissive cfg pt sd hit rayData) = true).
    { destruct (resolveEmissive_frame pt sd hit rayData)
        as (_&_&_&_&_&_&_&_&E&_). congruence. }
    destruct (continuesPath cfg computeIndirect _); [|assumption].
    simpl. auto.
  - unfold handleMiss. destruct (kUseEnvLight cfg && kUseMIS cfg); reflexivity.
Qed.

(** ** The hit handler *)

Lemma continuesPath_resolveEmissive pt sd hit computeIndirect r :
  continuesPath cfg computeIndirect (resolveEmissive cfg pt sd hit r) =
  computeIndirect && (pathLength r <? kMaxBounces cfg).
Proof.
  unfold continuesPath.
  destruct (resolveEmissive_frame pt sd hit r) as (_&_&_&_&_&E&_).
  now rewrite E.
Qed.

Lemma handleHit_Le pt sd hit computeIndirect r :
  Le (handleHit cfg pt sd hit computeIndirect r) =
  Le (resolveEmissive cfg pt sd hit r).
Proof.
  unfold handleHit.
  destruct (continuesPath cfg computeIndirect _); [|reflexivity].
  set (o := computeNewRayOrigin sd). set (r0 := resolveEmissive cfg pt sd hit r).
  simpl.
  destruct (generateScatterRay_fields pt sd o (generateShadowRay pt sd o r0))
    as (_&_&_&_&_&_&E&_).
  destruct (generateShadowRay_frame pt sd o r0) as (_&_&_&E'&_).
  congruence.
Qed.

(** C1, as amended: [handleHit] stores an emitted radiance into [Le] exactly
    when emissive lights are enabled, and either no emissive sampler is
    configured or both the emissive sampler and MIS are enabled, and the
    surface emission is greater than zero in some channel; the stored value
    is throughput x emission x MIS weight, and when the sampler-and-MIS case
    does not apply the weight is exactly 1, so that [Le] is throughput x
    emission.  Otherwise [Le] is left as it was. *)
Theorem handleHit_emissive pt sd hit computeIndirect rayData
    (Hthp : valid3 (thp rayData) = true)
    (Hemissive : valid3 (sd_emissive sd) = true) :
  let r' := handleHit cfg pt sd hit computeIndirect rayData in
  let resolved :=
    kUseEmissiveLights cfg &&
    (negb (kUseEmissiveSampler cfg) ||
     (kUseEmissiveSampler cfg && kUseMIS cfg)) &&
    any_gt0 (sd_emissive sd) in
  let sampled := kUseEmissiveSampler cfg && kUseMIS cfg in
  let misWeight :=
    if sampled then
      evalMIS (params pt) (pdf rayData)
        (F32.mul (emissiveSampler_evalPdf (emissiveSampler pt)
                    (origin rayData) (normal rayData) hit)
                 getEmissiveLightSelectionPdf)
    else F32.one in
  Le r' = (if resolved
           then mul3s (mul3 (thp rayData) (sd_emissive sd)) misWeight
           else Le rayData) /\
  (resolved = true -> sampled = false ->
   misWeight = F32.one /\ Le r' = mul3 (thp rayData) (sd_emissive sd)).
Proof.
  cbv zeta. rewrite handleHit_Le.
  unfold resolveEmissive, computeEmissive, emissiveMisWeight.
  split.
  - destruct (_ && any_gt0 (sd_emissive sd)); reflexivity.
  - intros Hres Hsampled. rewrite Hres, Hsampled. split; [reflexivity|].
    simpl. apply mul3s_one_r. now apply mul3_valid.
Qed.

(** C7: [handleHit] generates the shadow ray and the scatter ray and
    increments the path length by exactly one if and only if indirect
    illumination is enabled and the path length is below [kMaxBounces];
    otherwise no ray is generated: apart from [Le] the payload, its path
    length and its terminated flag included, is left as it was. *)
Theorem handleHit_continuation pt sd hit computeIndirect rayData
    (Hlen : 0 <= pathLength rayData)
    (Hmax : kMaxBounces cfg < uint_modulus) :
  let r' := handleHit cfg pt sd hit computeIndirect rayData in
  let r0 := resolveEmissive cfg pt sd hit rayData in
  let o := computeNewRayOrigin sd in
  let ls := fst (sampleSceneLights (params pt) (envProbe pt)
                   (emissiveSampler pt) sd o (sg rayData)) in
  (computeIndirect = true /\ pathLength rayData < kMaxBounces cfg ->
   r' = set_pathLength (pathLength rayData + 1)
          (generateScatterRay cfg pt sd o (generateShadowRay pt sd o r0)) /\
   pathLength r' = pathLength rayData + 1 /\
   origin r' = o /\
   shadowRay r' = mkFloat4 (SceneLightSample.rayDir ls)
                           (SceneLightSample.rayDistance ls)) /\
  (~ (computeIndirect = true /\ pathLength rayData < kMaxBounces cfg) ->
   r' = r0 /\
   pathLength r' = pathLength rayData /\
   terminated r' = terminated rayData /\
   origin r' = origin rayData /\ direction r' = direction rayData /\
   thp r' = thp rayData /\ pdf r' = pdf rayData /\
   normal r' = normal rayData /\ shadowRay r' = shadowRay rayData /\
   Lr r' = Lr rayData /\ sg r' = sg rayData) /\
  (pathLength r' = pathLength rayData + 1 <->
   computeIndirect = true /\ pathLength rayData < kMaxBounces cfg).
Proof.
  cbv zeta.
  set (o := computeNewRayOrigin sd).
  set (r0 := resolveEmissive cfg pt sd hit rayData).
  pose proof (continuesPath_resolveEmissive pt sd hit computeIndirect rayData)
    as Hgo. fold r0 in Hgo.
  destruct (resolveEmissive_frame pt sd hit rayData)
    as (F1&F2&F3&F4&F5&F6&F7&F8&F9&F10). fold r0 in F1,F2,F3,F4,F5,F6,F7,F8,F9,F10.
  destruct (generateShadowRay_frame pt sd o r0) as (_&_&_&_&_&_&S7&_).
  destruct (generateScatterRay_fields pt sd o (generateShadowRay pt sd o r0))
    as (G1&_&_&_&_&_&_&G8&G9&_).
  assert (Hthen : computeIndirect = true /\ pathLength rayData < kMaxBounces cfg ->
            handleHit cfg pt sd hit computeIndirect rayData =
            set_pathLength (pathLength rayData + 1)
              (generateScatterRay cfg pt sd o (generateShadowRay pt sd o r0))).
  { intros [Hi Hlt]. unfold handleHit. fold r0. rewrite Hgo, Hi.
    apply Z.ltb_lt in Hlt. rewrite Hlt. simpl. fold o. f_equal.
    rewrite G8, S7, F6. unfold uint_succ. apply Z.mod_small.
    apply Z.ltb_lt in Hlt. lia. }
  assert (Helse : ~ (computeIndirect = true /\
                     pathLength rayData < kMaxBounces cfg) ->
            handleHit cfg pt sd hit computeIndirect rayData = r0).
  { intros Hn. unfold handleHit. fold r0. rewrite Hgo.
    destruct computeIndirect; [|reflexivity]. simpl.
    destruct (pathLength rayData <? kMaxBounces cfg) eqn:E; [|reflexivity].
    apply Z.ltb_lt in E. tauto. }
  split; [|split].
  - intros Hc. rewrite (Hthen Hc). split; [reflexivity|]. simpl.
    split; [reflexivity|]. split; [assumption|].
    rewrite G9. unfold generateShadowRay. rewrite F10.
    destruct (sampleSceneLights _ _ _ _ _ _) as [l g]. reflexivity.
  - intros Hn. rewrite (Helse Hn). tauto.
  - split.
    + intros Hp.
      destruct computeIndirect.
      * destruct (Z_lt_le_dec (pathLength rayData) (kMaxBounces cfg)) as [L|L];
          [tauto|].
        rewrite Helse in Hp by lia. lia.
      * rewrite Helse in Hp by (intros [? _]; discriminate). lia.
    + intros Hc. rewrite (Hthen Hc). reflexivity.
Qed.

(** C8: [generateShadowRay] stores into [Lr] the BRDF-cosine term times the
    sampled light radiance, times the payload's current throughput, when
    the light sample is valid (radiance above zero in some channel) and
    zero otherwise, and does not touch the throughput; so in [handleHit]
    the stored [Lr] carries the throughput as it was on entry, although the
    handler leaves with the throughput multiplied by the scatter weight. *)
Theorem generateShadowRay_weights_by_entry_throughput
    pt sd hit rayOrigin rayData :
  let contribution o :=
    let ls := fst (sampleSceneLights (params pt) (envProbe pt)
                     (emissiveSampler pt) sd o (sg rayData)) in
    if any_gt0 (SceneLightSample.Li ls)
    then mul3 (mul3 (evalBRDFCosine sd (SceneLightSample.dir ls))
                    (SceneLightSample.Li ls))
              (thp rayData)
    else splat F32.zero in
  (Lr (generateShadowRay pt sd rayOrigin rayData) = contribution rayOrigin /\
   thp (generateShadowRay pt sd rayOrigin rayData) = thp rayData) /\
  (pathLength rayData < kMaxBounces cfg ->
   let r' := handleHit cfg pt sd hit true rayData in
   let o := computeNewRayOrigin sd in
   let sg1 := snd (sampleSceneLights (params pt) (envProbe pt)
                     (emissiveSampler pt) sd o (sg rayData)) in
   Lr r' = contribution o /\
   thp r' = mul3 (thp rayData) (ss_weight (scatterSample cfg sd sg1))).
Proof.
  cbv zeta.
  assert (Hshadow : forall o r,
            Lr (generateShadowRay pt sd o r) =
            (if any_gt0 (SceneLightSample.Li
                   (fst (sampleSceneLights (params pt) (envProbe pt)
                           (emissiveSampler pt) sd o (sg r))))
             then mul3 (mul3 (evalBRDFCosine sd (SceneLightSample.dir
                   (fst (sampleSceneLights (params pt) (envProbe pt)
                           (emissiveSampler pt) sd o (sg r)))))
                   (SceneLightSample.Li
                   (fst (sampleSceneLights (params pt) (envProbe pt)
                           (emissiveSampler pt) sd o (sg r)))))
                   (thp r)
             else splat F32.zero)).
  { intros o r. unfold generateShadowRay.
    destruct (sampleSceneLights _ _ _ _ _ _) as [l g]. reflexivity. }
  split.
  - split; [apply Hshadow|].
    now destruct (generateShadowRay_frame pt sd rayOrigin rayData) as (_&_&E&_).
  - intros Hlt.
    set (o := computeNewRayOrigin sd).
    set (r0 := resolveEmissive cfg pt sd hit rayData).
    destruct (resolveEmissive_frame pt sd hit rayData)
      as (_&_&F3&_&_&_&_&_&_&F10). fold r0 in F3, F10.
    assert (E : handleHit cfg pt sd hit true rayData =
                set_pathLength
                  (uint_succ (pathLength
                     (generateScatterRay cfg pt sd o
                        (generateShadowRay pt sd o r0))))
                  (generateScatterRay cfg pt sd o (generateShadowRay pt sd o r0))).
    { unfold handleHit.
      rewrite continuesPath_resolveEmissive. apply Z.ltb_lt in Hlt.
      rewrite Hlt. reflexivity. }
    rewrite E. simpl.
    destruct (generateScatterRay_fields pt sd o (generateShadowRay pt sd o r0))
      as (_&_&G3&_&_&_&_&_&_&G10&_).
    destruct (generateShadowRay_frame pt sd o r0) as (_&_&S3&_).
    rewrite G10, G3, S3, Hshadow, generateShadowRay_sg, F3, F10.
    split; reflexivity.
Qed.

End PathTracerFacts.

(** * The properties on concrete inputs *)

(** C1, as stated, fails: with emissive lights enabled and no emissive
    sampler, a surface whose emission is -1 in the red channel (non-zero in
    some channel) leaves [Le] untouched, where throughput x emission was
    claimed. *)
Lemma handleHit_emissive_nonzero_counterexample :
  let cfg := demoConfig true false false true false 4 in
  let sd := demoShadingWith F32.one (mkFloat3 f32_minus_one F32.zero F32.zero) in
  let rayData := demoPayload demoScene (splat f32_two) false in
  let r' := handleHit cfg (demoData demoScene) sd tt false rayData in
  kUseEmissiveLights cfg = true /\
  kUseEmissiveSampler cfg = false /\
  any_nonzero (demo_emissive sd) = true /\
  Le r' = Le rayData /\
  Le r' <> mul3 (thp rayData) (demo_emissive sd).
Proof.
  cbv zeta. repeat split; try reflexivity. vm_compute. discriminate.
Qed.

Lemma handleHit_emissive_witness :
  let cfg := demoConfig true false false true false 4 in
  let sd := demoShadingWith F32.one (mkFloat3 F32.one f32_half F32.zero) in
  let rayData := demoPayload demoScene (splat f32_two) false in
  let r' := handleHit cfg (demoData demoScene) sd tt false rayData in
  (valid3 (thp rayData) = true /\ valid3 (demo_emissive sd) = true) /\
  Le r' = mkFloat3 f32_two F32.one F32.zero /\
  Le r' = mul3 (thp rayData) (demo_emissive sd).
Proof.
  cbv zeta.
  pose proof (@handleHit_emissive (demoCollaborators demoScene)
                (demoConfig true false false true false 4)
                (demoData demoScene)
                (demoShadingWith F32.one (mkFloat3 F32.one f32_half F32.zero))
                tt false (demoPayload demoScene (splat f32_two) false)
                eq_refl eq_refl) as [Hle Hone].
  split; [split; reflexivity|].
  split.
  - rewrite Hle. vm_compute. reflexivity.
  - apply Hone; reflexivity.
Defined.

Lemma generateScatterRay_cosine_fallback_witness :
  let cfg := demoConfig false true false false false 4 in
  let sd := demoShadingWith F32.zero (splat F32.zero) in
  let rayData := demoPayload demoScene (splat F32.one) false in
  let r' := generateScatterRay cfg (demoData demoScene) sd (splat F32.zero)
              rayData in
  kUseBRDFSampling cfg = false /\
  F32.ltb (F32.min (demo_NdotV sd)
                   (dot (demo_N sd) (mkFloat3 F32.zero F32.zero F32.one)))
          (kMinCosTheta cfg) = true /\
  thp r' = mul3 (thp rayData) (mul3s (splat f32_half) f32_pi) /\
  pdf r' = F32.zero.
Proof.
  cbv zeta.
  pose proof (@generateScatterRay_cosine_fallback (demoCollaborators demoScene)
                (demoConfig false true false false false 4)
                (demoData demoScene)
                (demoShadingWith F32.zero (splat F32.zero)) (splat F32.zero)
                (demoPayload demoScene (splat F32.one) false) eq_refl)
    as (_ & Hthp & Hpdf).
  split; [reflexivity|]. split; [vm_compute; reflexivity|].
  split; [exact Hthp|]. apply Hpdf. vm_compute. reflexivity.
Defined.

Lemma generateScatterRay_zero_throughput_terminates_witness :
  let cfg := demoConfig true true false false false 4 in
  let r' := generateScatterRay cfg (demoData demoSceneRejecting) demoShading
              (splat F32.zero)
              (demoPayload demoSceneRejecting (splat F32.one) false) in
  all_eq0 (thp r') = true /\ terminated r' = true.
Proof.
  cbv zeta. split; [vm_compute; reflexivity|].
  apply (@generateScatterRay_zero_throughput_terminates
           (demoCollaborators demoSceneRejecting)).
  vm_compute. reflexivity.
Defined.

Lemma handleHit_continuation_witness :
  let cfg := demoConfig true true false false false 4 in
  let rayData := demoPayload demoScene (splat F32.one) false in
  let r' := handleHit cfg (demoData demoScene) demoShading tt true rayData in
  (0 <= pathLength rayData /\ kMaxBounces cfg < uint_modulus) /\
  (true = true /\ pathLength rayData < kMaxBounces cfg) /\
  pathLength r' = 1.
Proof.
  cbv zeta.
  pose proof (@handleHit_continuation (demoCollaborators demoScene)
                (demoConfig true true false false false 4)
                (demoData demoScene) demoShading tt true
                (demoPayload demoScene (splat F32.one) false)
                ltac:(simpl; lia) ltac:(vm_compute; reflexivity))
    as (Hthen & _ & _).
  split; [split; [simpl; lia | vm_compute; reflexivity]|].
  split; [split; [reflexivity | simpl; lia]|].
  apply Hthen. split; [reflexivity | simpl; lia].
Defined.

Lemma generateShadowRay_weights_by_entry_throughput_witness :
  let cfg := demoConfig true true false false false 4 in
  let rayData := demoPayload demoScene (splat f32_two) false in
  let r' := handleHit cfg (demoData demoScene) demoShading tt true rayData in
  pathLength rayData < kMaxBounces cfg /\
  Lr r' = splat f32_two /\ thp r' = splat F32.one.
Proof.
  cbv zeta.
  pose proof (@generateShadowRay_weights_by_entry_throughput
                (demoCollaborators demoScene)
                (demoConfig true true false false false 4)
                (demoData demoScene) demoShading tt (splat F32.zero)
                (demoPayload demoScene (splat f32_two) false))
    as (_ & Hhit).
  assert (Hlt : pathLength (demoPayload demoScene (splat f32_two) false) <
                kMaxBounces (demoConfig true true false false false 4))
    by (simpl; lia).
  split; [exact Hlt|].
  destruct (Hhit Hlt) as [HLr Hthp].
  split.
  - rewrite HLr. vm_compute. reflexivity.
  - rewrite Hthp. vm_compute. reflexivity.
Defined.

(** C9, as stated, fails: none of the routines returns a NaN, yet the
    throughput leaves [generateScatterRay] with a NaN channel and the first
    assertion fails.  In the BRDF branch the sampled weight is +infinity; in
    the fallback branch every value is finite, the BRDF value times [M_PI]
    overflows, and the red channel of the entry throughput is 0. *)
Lemma generateScatterRay_asserts_counterexample :
  let entry := mkFloat3 F32.zero F32.one F32.one in
  (let cfg := demoConfig true true false false false 4 in
   let rayData := demoPayload demoSceneInfiniteSample entry false in
   let result := fst (sampleBRDF (Collaborators := demoCollaborators demoSceneInfiniteSample)
                        demoShading (sg rayData)) in
   any_isnan (BRDFSample.thp result) = false /\
   F32.isnan (BRDFSample.pdf result) = false /\
   any_isnan (thp rayData) = false /\
   generateScatterRay_asserts (C := demoCollaborators demoSceneInfiniteSample)
     cfg demoShading (splat F32.zero) rayData = false /\
   any_isnan (thp (generateScatterRay cfg (demoData demoSceneInfiniteSample)
                     demoShading (splat F32.zero) rayData)) = true) /\
  (let cfg := demoConfig false true false false false 4 in
   let rayData := demoPayload demoSceneHugeBRDF entry false in
   let s := sampleHemisphereCosine (Collaborators := demoCollaborators demoSceneHugeBRDF)
              demoShading
              (fst (sampleNext2D (Collaborators := demoCollaborators demoSceneHugeBRDF)
                      (sg rayData))) in
   valid3 (evalBRDF (Collaborators := demoCollaborators demoSceneHugeBRDF)
             demoShading (fst s)) = true /\
   any_isnan (evalBRDF (Collaborators := demoCollaborators demoSceneHugeBRDF)
                demoShading (fst s)) = false /\
   F32.isnan (snd s) = false /\
   any_isnan (thp rayData) = false /\
   generateScatterRay_asserts (C := demoCollaborators demoSceneHugeBRDF)
     cfg demoShading (splat F32.zero) rayData = false /\
   any_isnan (thp (generateScatterRay cfg (demoData demoSceneHugeBRDF)
                     demoShading (splat F32.zero) rayData)) = true).
Proof.
  cbv zeta. split; repeat split; vm_compute; reflexivity.
Qed.

Lemma generateScatterRay_asserts_characterised_witness :
  let cfg := demoConfig true true false false false 4 in
  let rayData := demoPayload demoScene (splat F32.one) false in
  let r' := generateScatterRay cfg (demoData demoScene) demoShading
              (splat F32.zero) rayData in
  any_isnan (thp rayData) = false /\
  zero_times_inf3 (thp rayData) (splat f32_half) = false /\
  generateScatterRay_asserts (C := demoCollaborators demoScene)
    cfg demoShading (splat F32.zero) rayData = true /\
  any_isnan (thp r') = false /\ F32.isnan (pdf r') = false.
Proof.
  cbv zeta.
  pose proof (@generateScatterRay_asserts_characterised
                (demoCollaborators demoScene)
                (demoConfig true true false false false 4)
                (demoData demoScene) demoShading (splat F32.zero)
                (demoPayload demoScene (splat F32.one) false)
                eq_refl
                (fun _ => conj eq_refl eq_refl)
                (fun H : true = false =>
                   False_ind _ (Bool.diff_true_false H)))
    as [Hassert Hpayload].
  split; [reflexivity|]. split; [reflexivity|].
  split.
  - apply Hassert. vm_compute. reflexivity.
  - apply Hpayload. vm_compute. reflexivity.
Defined.

Lemma terminated_monotone_witness :
  let cfg := demoConfig true true true true false 4 in
  let rayData := demoPayload demoScene (splat F32.one) true in
  terminated rayData = true /\
  terminated (handleHit cfg (demoData demoScene) demoShading tt true rayData)
    = true.
Proof.
  cbv zeta. split; [reflexivity|].
  apply (@terminated_monotone (demoCollaborators demoScene)
           (demoConfig true true true true false 4) (demoData demoScene)
           demoShading tt true (splat F32.zero)
           (demoPayload demoScene (splat F32.one) true) eq_refl).
Defined.

(** * Further properties of the path tracer core *)

Section PathTracerExtras.

Context {C : Collaborators}.
Variable cfg : StaticParams.

(** ** Helper facts *)

Lemma ScatterRayData_eta (r : ScatterRayData) :
  r = mkScatterRayData (origin r) (direction r) (thp r) (Le r) (pdf r)
        (normal r) (pathLength r) (shadowRay r) (Lr r) (terminated r) (sg r).
Proof. destruct r; reflexivity. Qed.

Lemma eqb_zero_iszero x : F32.eqb x F32.zero = F32.iszero x.
Proof. destruct x as [s|s| |s m e]; try reflexivity; destruct s; reflexivity. Qed.

Lemma all_eq0_iszero v :
  all_eq0 v = F32.iszero (vx v) && F32.iszero (vy v) && F32.iszero (vz v).
Proof. unfold all_eq0. now rewrite !eqb_zero_iszero. Qed.

Lemma mul_zero_l a b :
  F32.iszero a = true -> F32.isnan b = false -> F32.isinf b = false ->
  F32.iszero (F32.mul a b) = true.
Proof.
  destruct a as [sa|sa| |sa ma ea]; try discriminate.
  destruct b as [sb|sb| |sb mb eb]; try discriminate; reflexivity.
Qed.

Lemma handleHit_pathLength pt sd hit computeIndirect r :
  pathLength (handleHit cfg pt sd hit computeIndirect r) =
  if computeIndirect && (pathLength r <? kMaxBounces cfg)
  then uint_succ (pathLength r) else pathLength r.
Proof.
  unfold handleHit. rewrite continuesPath_resolveEmissive.
  destruct (resolveEmissive_frame cfg pt sd hit r) as (_&_&_&_&_&E&_).
  destruct (computeIndirect && (pathLength r <? kMaxBounces cfg));
    [|assumption].
  simpl.
  set (o := computeNewRayOrigin sd).
  set (r0 := resolveEmissive cfg pt sd hit r) in *.
  destruct (generateScatterRay_fields cfg pt sd o (generateShadowRay pt sd o r0))
    as (_&_&_&_&_&_&_&G&_).
  destruct (generateShadowRay_frame pt sd o r0) as (_&_&_&_&_&_&S&_).
  now rewrite G, S, E.
Qed.

Lemma traceShadowRay_effects o d t v w :
  traceCount (snd (traceShadowRay cfg o d t v w)) =
    (if v then N.succ (traceCount w) else traceCount w) /\
  length (dispatched (snd (traceShadowRay cfg o d t v w))) =
    S (length (dispatched w)).
Proof. destruct v; split; reflexivity. Qed.

(** ** The direct illumination estimator *)

(** [evalDirect] returns BRDF-cosine x light radiance when the light sample
    has a channel above zero and the dispatched shadow ray reports the light
    visible, and zero radiance in every other case; the sample generator
    comes back as the light sampler left it. *)
Theorem evalDirect_radiance pt sd rayOrigin sg0 w0 :
  let ls := fst (sampleSceneLights (params pt) (envProbe pt)
                   (emissiveSampler pt) sd rayOrigin sg0) in
  let d := mkDispatch
             (Z.lor RAY_FLAG_SKIP_CLOSEST_HIT_SHADER
                    RAY_FLAG_ACCEPT_FIRST_HIT_AND_END_SEARCH)
             255 (kRayTypeShadow cfg) (hitProgramCount cfg)
             (kRayTypeShadow cfg)
             (mkRayDesc rayOrigin (SceneLightSample.rayDir ls) F32.zero
                (SceneLightSample.rayDistance ls)) in
  let lit := any_gt0 (SceneLightSample.Li ls) &&
             visible (TraceRay_shadow d (mkShadowRayData false)) in
  let result := fst (evalDirect cfg pt sd rayOrigin sg0 w0) in
  fst result =
    (if lit
     then mul3 (evalBRDFCosine sd (SceneLightSample.dir ls))
               (SceneLightSample.Li ls)
     else splat F32.zero) /\
  snd result = snd (sampleSceneLights (params pt) (envProbe pt)
                      (emissiveSampler pt) sd rayOrigin sg0).
Proof.
  cbv zeta. unfold evalDirect.
  destruct (sampleSceneLights _ _ _ _ _ _) as [ls sg1]. simpl fst; simpl snd.
  unfold bind, traceShadowRay, bind, TraceRay, ret, logTraceRay.
  destruct (any_gt0 (SceneLightSample.Li ls)); simpl; split; reflexivity.
Qed.

(** [evalDirect] always hands exactly one ray to the dispatch, from the
    given origin towards the sampled light, and counts it as traced only
    when the light sample is valid: an invalid sample is dispatched as a
    dummy ray of extent 0 and leaves the trace counter alone. *)
Theorem evalDirect_trace_effects pt sd rayOrigin sg0 w0 :
  let ls := fst (sampleSceneLights (params pt) (envProbe pt)
                   (emissiveSampler pt) sd rayOrigin sg0) in
  let valid := any_gt0 (SceneLightSample.Li ls) in
  let w1 := snd (evalDirect cfg pt sd rayOrigin sg0 w0) in
  traceCount w1 = (if valid then N.succ (traceCount w0) else traceCount w0) /\
  exists d, dispatched w1 = d :: dispatched w0 /\
            Origin (ray d) = rayOrigin /\
            Direction (ray d) = SceneLightSample.rayDir ls /\
            TMin (ray d) = F32.zero /\
            TMax (ray d) = (if valid then SceneLightSample.rayDistance ls
                            else F32.zero).
Proof.
  cbv zeta. unfold evalDirect.
  destruct (sampleSceneLights _ _ _ _ _ _) as [ls sg1]. simpl fst.
  unfold bind, traceShadowRay, bind, TraceRay, ret, logTraceRay.
  destruct (any_gt0 (SceneLightSample.Li ls)); simpl;
    (split; [reflexivity|]); eexists; repeat split.
Qed.


(** ** The shadow-ray primitive *)

(** Over any sequence of shadow rays the trace counter grows by the number
    of valid rays, while the dispatch receives every ray, dummy or not. *)
Theorem traceShadowRay_counts_valid_rays
    (requests : list (float3 * float3 * float * bool)) w0 :
  let step w q :=
    let '(o, d, t, v) := q in snd (traceShadowRay cfg o d t v w) in
  let w1 := fold_left step requests w0 in
  traceCount w1 =
    (traceCount w0 + N.of_nat (length (filter snd requests)))%N /\
  length (dispatched w1) = (length requests + length (dispatched w0))%nat.
Proof.
  cbv zeta. revert w0.
  induction requests as [|[[[o d] t] v] qs IH]; intros w0.
  - simpl. split; [lia|reflexivity].
  - cbn [fold_left].
    destruct (IH (snd (traceShadowRay cfg o d t v w0))) as [Hc Hd].
    destruct (traceShadowRay_effects o d t v w0) as [Ec Ed].
    rewrite Hc, Hd, Ec, Ed. cbn [filter snd]. destruct v; cbn [length]; split; lia.
Qed.

(** ** The generators *)

(** [generateShadowRay] writes the shadow-ray descriptor, [Lr] and the
    sample generator and nothing else; the descriptor is the sampled
    direction and distance whether or not the light sample is valid, and
    [Lr] is zero for an invalid sample. *)
Theorem generateShadowRay_writes_only_shadow_fields pt sd rayOrigin rayData :
  let sample := sampleSceneLights (params pt) (envProbe pt)
                  (emissiveSampler pt) sd rayOrigin (sg rayData) in
  let r' := generateShadowRay pt sd rayOrigin rayData in
  r' = set_sg (sg r') (set_Lr (Lr r') (set_shadowRay (shadowRay r') rayData)) /\
  shadowRay r' = mkFloat4 (SceneLightSample.rayDir (fst sample))
                          (SceneLightSample.rayDistance (fst sample)) /\
  sg r' = snd sample /\
  (any_gt0 (SceneLightSample.Li (fst sample)) = false ->
   Lr r' = splat F32.zero).
Proof.
  cbv zeta. unfold generateShadowRay.
  destruct (sampleSceneLights _ _ _ _ _ _) as [ls sg1]. simpl.
  repeat split. intros ->. reflexivity.
Qed.

(** [generateScatterRay] starts the next segment at the given origin and
    never touches [Le], [Lr], the shadow-ray descriptor or the path
    length; the sample generator comes back as the sampling routine of the
    active branch left it. *)
Theorem generateScatterRay_frame pt sd rayOrigin rayData :
  let r' := generateScatterRay cfg pt sd rayOrigin rayData in
  origin r' = rayOrigin /\
  Le r' = Le rayData /\ Lr r' = Lr rayData /\
  shadowRay r' = shadowRay rayData /\ pathLength r' = pathLength rayData /\
  sg r' = (if kUseBRDFSampling cfg
           then snd (sampleBRDF sd (sg rayData))
           else snd (sampleNext2D (sg rayData))).
Proof.
  cbv zeta.
  destruct (generateScatterRay_fields cfg pt sd rayOrigin rayData)
    as (Ho&_&_&_&_&Hs&HLe&Hp&Hsh&HLr&_).
  repeat split; try assumption.
  rewrite Hs. unfold scatterSample. destruct (kUseBRDFSampling cfg).
  - destruct (sampleBRDF sd (sg rayData)); reflexivity.
  - destruct (sampleNext2D (sg rayData)) as [u g].
    destruct (sampleHemisphereCosine sd u); reflexivity.
Qed.

(** Zero throughput is absorbing: a payload that enters
    [generateScatterRay] with throughput zero in every channel, and draws a
    weight without NaN or infinite channel, leaves with zero throughput and
    the terminated flag set. *)
Theorem generateScatterRay_zero_throughput_absorbing
    pt sd rayOrigin rayData
    (Hzero : all_eq0 (thp rayData) = true)
    (Hnan : any_isnan (ss_weight (scatterSample cfg sd (sg rayData))) = false)
    (Hinf : let weight := ss_weight (scatterSample cfg sd (sg rayData)) in
            F32.isinf (vx weight) = false /\ F32.isinf (vy weight) = false /\
            F32.isinf (vz weight) = false) :
  let r' := generateScatterRay cfg pt sd rayOrigin rayData in
  all_eq0 (thp r') = true /\ terminated r' = true.
Proof.
  cbv zeta in *.
  destruct (generateScatterRay_fields cfg pt sd rayOrigin rayData)
    as (_&_&Ht&_&_&_&_&_&_&_&Hterm).
  rewrite Ht, Hterm.
  set (wgt := ss_weight (scatterSample cfg sd (sg rayData))) in *.
  assert (Hz : all_eq0 (mul3 (thp rayData) wgt) = true).
  { rewrite all_eq0_iszero in *. destruct (thp rayData) as [a b c].
    destruct wgt as [a' b' c']. unfold any_isnan in Hnan. simpl in *.
    apply andb_prop in Hzero. destruct Hzero as [Hzero Hc].
    apply andb_prop in Hzero. destruct Hzero as [Ha Hb].
    apply orb_false_elim in Hnan. destruct Hnan as [Hnan Hnc].
    apply orb_false_elim in Hnan. destruct Hnan as [Hna Hnb].
    destruct Hinf as (Hia & Hib & Hic).
    now rewrite !mul_zero_l. }
  rewrite Hz. split; [reflexivity|apply orb_true_r].
Qed.

(** ** The handlers *)

(** [handleMiss] writes the terminated flag and [Le] only, and handling
    the same miss twice changes nothing more: the environment term is
    computed from fields the handler does not write. *)
Theorem handleMiss_frame_idempotent pt rayData :
  let r' := handleMiss cfg pt rayData in
  r' = set_Le (Le r') (set_terminated true rayData) /\
  handleMiss cfg pt r' = r'.
Proof.
  cbv zeta. unfold handleMiss.
  destruct (kUseEnvLight cfg && kUseMIS cfg); simpl; split; reflexivity.
Qed.

(** [handleHit] sets the terminated flag only through the scatter ray: the
    flag is set on exit exactly when it was set on entry, or the path
    continued and its throughput left the scatter-ray generator at zero in
    every channel.  Reaching [kMaxBounces] does not set it. *)
Theorem handleHit_terminated_iff pt sd hit computeIndirect rayData :
  let r' := handleHit cfg pt sd hit computeIndirect rayData in
  terminated r' =
  terminated rayData ||
  (computeIndirect && (pathLength rayData <? kMaxBounces cfg) &&
   all_eq0 (thp r')).
Proof.
  cbv zeta. unfold handleHit. rewrite continuesPath_resolveEmissive.
  destruct (resolveEmissive_frame cfg pt sd hit rayData)
    as (_&_&_&_&_&_&_&_&E&_).
  destruct (computeIndirect && (pathLength rayData <? kMaxBounces cfg)).
  - simpl.
    set (o := computeNewRayOrigin sd).
    set (r0 := resolveEmissive cfg pt sd hit rayData) in *.
    destruct (generateScatterRay_fields cfg pt sd o
                (generateShadowRay pt sd o r0))
      as (_&_&G3&_&_&_&_&_&_&_&G).
    destruct (generateShadowRay_frame pt sd o r0) as (_&_&_&_&_&_&_&S).
    rewrite G, G3, S, E. reflexivity.
  - simpl. rewrite orb_false_r. assumption.
Qed.

(** [handleHit] does not look at the terminated flag: whatever the flag on
    entry, the payload comes back the same in every other field, so that a
    terminated path below the bounce limit is still given a shadow ray and
    a scatter ray. *)
Theorem handleHit_ignores_terminated pt sd hit computeIndirect rayData flag :
  set_terminated false
    (handleHit cfg pt sd hit computeIndirect (set_terminated flag rayData)) =
  set_terminated false (handleHit cfg pt sd hit computeIndirect rayData).
Proof.
  unfold handleHit, continuesPath, resolveEmissive.
  destruct (computeEmissive cfg && any_gt0 (sd_emissive sd)); simpl;
    destruct (computeIndirect && (pathLength rayData <? kMaxBounces cfg));
    simpl; try reflexivity;
    unfold generateShadowRay; simpl;
    destruct (sampleSceneLights _ _ _ _ _ _) as [ls sg1]; simpl;
    unfold generateScatterRay, scatterSegment; simpl;
    destruct (kUseMIS cfg); simpl;
    match goal with
    | |- context [all_eq0 ?v] => destruct (all_eq0 v)
    end; reflexivity.
Qed.

(** With MIS disabled no code path of the handlers reads the payload's pdf
    or normal: [handleMiss] passes both through untouched, and [handleHit]
    returns the same payload, pdf and normal apart, whatever they were on
    entry. *)
Theorem handlers_ignore_pdf_and_normal_without_MIS
    pt sd hit computeIndirect rayData p n
    (Hmis : kUseMIS cfg = false) :
  handleMiss cfg pt (set_normal n (set_pdf p rayData)) =
    set_normal n (set_pdf p (handleMiss cfg pt rayData)) /\
  set_normal n (set_pdf p
    (handleHit cfg pt sd hit computeIndirect
       (set_normal n (set_pdf p rayData)))) =
  set_normal n (set_pdf p (handleHit cfg pt sd hit computeIndirect rayData)).
Proof.
  split.
  - unfold handleMiss. rewrite Hmis, andb_false_r. reflexivity.
  - unfold handleHit, continuesPath, resolveEmissive, emissiveMisWeight.
    rewrite Hmis, andb_false_r.
    destruct (computeEmissive cfg && any_gt0 (sd_emissive sd)); simpl;
      destruct (computeIndirect && (pathLength rayData <? kMaxBounces cfg));
      simpl; try reflexivity;
      unfold generateShadowRay; simpl;
      destruct (sampleSceneLights _ _ _ _ _ _) as [ls sg1]; simpl;
      unfold generateScatterRay, scatterSegment; simpl;
      rewrite Hmis; simpl;
      match goal with
      | |- context [all_eq0 ?v] => destruct (all_eq0 v)
      end; reflexivity.
Qed.

(** The bounce limit bounds the path: over any sequence of hits with
    indirect illumination enabled, a path that starts at length [p] within
    the limit ends at length [min (p + number of hits) kMaxBounces]; the
    length never passes [kMaxBounces]. *)
Theorem handleHit_path_length_bounded pt
    (hits : list (ShadingData * TriangleHit)) rayData
    (Hlen : 0 <= pathLength rayData <= kMaxBounces cfg)
    (Hmax : kMaxBounces cfg < uint_modulus) :
  let step r h := handleHit cfg pt (fst h) (snd h) true r in
  pathLength (fold_left step hits rayData) =
  Z.min (pathLength rayData + Z.of_nat (length hits)) (kMaxBounces cfg).
Proof.
  cbv zeta. revert rayData Hlen.
  induction hits as [|h hs IH]; intros rayData Hlen.
  - simpl. lia.
  - cbn [fold_left length].
    pose proof (handleHit_pathLength pt (fst h) (snd h) true rayData) as Hp.
    simpl andb in Hp.
    destruct (pathLength rayData <? kMaxBounces cfg) eqn:E.
    + apply Z.ltb_lt in E.
      assert (Hs : uint_succ (pathLength rayData) = pathLength rayData + 1).
      { unfold uint_succ. apply Z.mod_small. lia. }
      rewrite Hs in Hp. rewrite IH by lia. rewrite Hp. lia.
    + apply Z.ltb_ge in E. rewrite IH by lia. rewrite Hp. lia.
Qed.

End PathTracerExtras.

(** * Properties of the scene render pass *)

Section SceneRenderPassFacts.

Import SceneRenderPass.

Context {Texture Scene SceneRenderer : Type}.
Variable createSceneRenderer : Scene -> option SceneRenderer.
Variable create2D :
  Z -> Z -> ResourceFormat -> Z -> Z -> ResourceBindFlags -> Texture.
Variables FboAttachmentType_Color FboAttachmentType_Depth : Z.

Let run (a : Answers) (m : Members) : Members * list Call :=
  execute (SceneRenderer := SceneRenderer) create2D
    FboAttachmentType_Color FboAttachmentType_Depth a m.

Ltac execute_cases a m :=
  unfold run, execute, initDepth;
  destruct (getTexture a kDepth) as [depth|];
  [|destruct (getDepthStencilTexture a) as [attached|]];
  destruct (mpSceneRenderer m) as [renderer|]; cbn.

Ltac names_differ :=
  cbv; intuition (try discriminate; try congruence).

(** The render data is asked only for fields [reflect] declares, and for
    each at most once; with a scene renderer set, every declared field is
    asked for.  The declared names are pairwise distinct, and the depth
    field, the one whose absence [initDepth] handles, is the only optional
    one. *)
Theorem execute_looks_up_declared_fields (a : Answers) (m : Members) :
  let asked := lookups (snd (run a m)) in
  let declared := map fieldName reflect in
  NoDup declared /\
  (forall f, In f reflect -> (fieldOptional f = true <-> fieldName f = kDepth)) /\
  NoDup asked /\
  incl asked declared /\
  (mpSceneRenderer m <> None -> incl declared asked).
Proof.
  cbv zeta.
  assert (D : NoDup (map fieldName reflect)).
  { cbn. repeat constructor; names_differ. }
  split; [exact D|]. split.
  { intros f Hf. cbn in Hf.
    destruct Hf as [<-|[<-|[<-|[<-|[<-|[]]]]]]; cbn; names_differ. }
  execute_cases a m;
    (split; [repeat constructor; names_differ|]);
    (split; [intros x Hx; cbn in Hx |-*; tauto|]);
    intros Hr; try congruence;
    intros x Hx; cbn in Hx |-*; tauto.
Qed.

(** [execute] binds colour target 0 to the colour field, 1 to the normals
    and 2 to the motion vectors, whatever the render data holds (a missing
    field is attached as null, not skipped), and clears targets 1 and 2 to
    zero and nothing else: the colour target is never cleared. *)
Theorem execute_targets_and_clears (a : Answers) (m : Members) :
  let calls := snd (run a m) in
  (forall t i, In (AttachColorTarget t i) calls <->
     (i = 0 /\ t = getTexture a kColor) \/
     (i = 1 /\ t = getTexture a kNormals) \/
     (i = 2 /\ t = getTexture a kMotionVecs)) /\
  (forall i c, In (ClearRtv i c) calls <->
     (i = 1 \/ i = 2) /\ c = vec4_zero).
Proof.
  cbv zeta.
  execute_cases a m; split; intros; split; intros H;
    repeat match goal with
    | H : _ \/ _ |- _ => destruct H
    | H : _ /\ _ |- _ => destruct H
    | H : False |- _ => destruct H
    | H : @eq Call _ _ |- _ => first [discriminate H | injection H as <- <-]
    end; subst; auto 20.
Qed.

Ltac in_calls :=
  repeat match goal with
  | H : _ \/ _ |- _ => destruct H
  | H : False |- _ => destruct H
  | H : @eq Call _ _ |- _ => first [discriminate H | injection H as <-]
  end.

Lemma run_draws (a : Answers) (m : Members) r :
  In (RenderScene r) (snd (run a m)) <-> mpSceneRenderer m = Some r.
Proof.
  execute_cases a m; split; intros H; in_calls;
    try reflexivity; try discriminate;
    injection H as <-; tauto.
Qed.

Lemma run_without_renderer (a : Answers) (m : Members) :
  mpSceneRenderer m = None ->
  ~ In PushGraphicsState (snd (run a m)) /\
  ~ In PushGraphicsVars (snd (run a m)) /\
  ~ In SetFbo (snd (run a m)).
Proof.
  intros Hm. unfold run, execute, initDepth.
  destruct (getTexture a kDepth) as [depth|];
    [|destruct (getDepthStencilTexture a) as [attached|]];
    cbn [mpSceneRenderer fst snd]; rewrite Hm; cbn;
    repeat split; intros H; in_calls.
Qed.

(** The scene is drawn exactly when the last [setScene] was given a scene
    for which a renderer could be created; after [setScene(nullptr)] the
    pass still binds and clears its targets but pushes nothing, binds no
    frame buffer and draws nothing. *)
Theorem execute_draws_iff_scene_set (a : Answers) (m : Members)
    (pScene : option Scene) :
  let calls := snd (run a (setScene createSceneRenderer pScene m)) in
  (forall r, In (RenderScene r) calls <->
             exists s, pScene = Some s /\ createSceneRenderer s = Some r) /\
  (pScene = None ->
   ~ In PushGraphicsState calls /\ ~ In PushGraphicsVars calls /\
   ~ In SetFbo calls /\ forall r, ~ In (RenderScene r) calls).
Proof.
  cbv zeta. split.
  - intros r. rewrite run_draws. unfold setScene.
    destruct pScene as [s|]; cbn.
    + split; [intros H; exists s; auto|].
      intros (s' & Hs & Hr). injection Hs as <-. assumption.
    + split; [discriminate|]. intros (s' & Hs & _). discriminate.
  - intros ->.
    assert (Hn : mpSceneRenderer (setScene createSceneRenderer None m) = None)
      by reflexivity.
    destruct (run_without_renderer a _ Hn) as (H1 & H2 & H3).
    repeat split; try assumption.
    intros r Hr. apply run_draws in Hr. rewrite Hn in Hr. discriminate.
Qed.

(** Whatever the inputs, the pushes and pops [execute] makes on the render
    context nest: the scene is drawn with the graphics state and the
    graphics variables pushed, and both are popped again before
    [execute] returns. *)
Theorem execute_pushes_and_pops_nest (a : Answers) (m : Members) :
  bracketed 0 0 (snd (run a m)) = true.
Proof. execute_cases a m; reflexivity. Qed.

(** [initDepth] attaches the depth texture of the render data when there is
    one, and then disables depth writes; without one it restores the
    default depth-stencil state and attaches a fresh D32Float texture of
    the frame buffer's size only if the frame buffer has no depth
    attachment: an attachment already there is kept.  The scene renderer is
    not touched. *)
Theorem initDepth_depth_target (a : Answers) (m : Members) :
  let result := initDepth (SceneRenderer := SceneRenderer) create2D
                  FboAttachmentType_Color FboAttachmentType_Depth a m in
  let fresh := create2D (initWidth a) (initHeight a) D32Float 1 1
                 DepthStencil in
  mpSceneRenderer (fst result) = mpSceneRenderer m /\
  (forall t, In (AttachDepthStencilTarget t) (snd result) <->
     getTexture a kDepth = Some t \/
     (getTexture a kDepth = None /\ getDepthStencilTexture a = None /\
      t = fresh)) /\
  (forall ds, In (SetDepthStencilState ds) (snd result) <->
     ds = match getTexture a kDepth with
          | Some _ => Some mpDsNoDepthWrite
          | None => None
          end) /\
  depthWriteMask mpDsNoDepthWrite = false.
Proof.
  cbv zeta. unfold initDepth.
  destruct (getTexture a kDepth) as [depth|];
    [|destruct (getDepthStencilTexture a) as [attached|]]; cbn;
    (split; [reflexivity|]);
    (split; [|split; [|reflexivity]]);
    intros x; (split; intros H);
    repeat match goal with
    | H : _ \/ _ |- _ => destruct H
    | H : _ /\ _ |- _ => destruct H
    | H : False |- _ => destruct H
    | H : @eq Call _ _ |- _ => first [discriminate H | injection H as <-]
    | H : @eq (option _) _ _ |- _ => first [discriminate H | injection H as <-]
    end; subst; auto 10.
Qed.

End SceneRenderPassFacts.

(** [renderUI] closes a group exactly when it opened one: [EndGroup] is
    called if and only if a group name was given and the GUI reported the
    group as open; the colour widget is shown when no group was asked for
    or the group is open, and not when the group is collapsed. *)
Theorem renderUI_groups_balanced uiGroup beginGroup :
  let calls := SceneRenderPass.renderUI uiGroup beginGroup in
  (In SceneRenderPass.EndGroup calls <->
   exists g, uiGroup = Some g /\ beginGroup g = true) /\
  (In (SceneRenderPass.AddRgbaColor SceneRenderPass.clearColorLabel) calls <->
   uiGroup = None \/ exists g, uiGroup = Some g /\ beginGroup g = true) /\
  (forall g, In (SceneRenderPass.BeginGroup g) calls <-> uiGroup = Some g).
Proof.
  cbv zeta. unfold SceneRenderPass.renderUI.
  destruct uiGroup as [g|]; [destruct (beginGroup g) eqn:E|]; cbn;
    (split; [|split; [|intros x]]); (split; intros H);
    repeat match goal with
    | H : _ \/ _ |- _ => destruct H
    | H : _ /\ _ |- _ => destruct H
    | H : exists _, _ |- _ => destruct H
    | H : False |- _ => destruct H
    | H : @eq SceneRenderPass.GuiCall _ _ |- _ =>
        first [discriminate H | injection H as <-]
    | H : @eq (option _) _ _ |- _ =>
        first [discriminate H | injection H as <-]
    end; subst; try congruence; eauto 10.
Qed.

(** * The further properties on concrete inputs *)


Lemma generateShadowRay_writes_only_shadow_fields_witness :
  let rayData := demoPayload demoSceneDark (splat F32.one) false in
  let r' := generateShadowRay (demoData demoSceneDark) demoShading
              (splat F32.zero) rayData in
  any_gt0 (SceneLightSample.Li (demo_light demoSceneDark)) = false /\
  Lr r' = splat F32.zero /\
  w (shadowRay r') = f32_two.
Proof.
  cbv zeta.
  pose proof (@generateShadowRay_writes_only_shadow_fields
                (demoCollaborators demoSceneDark)
                (demoData demoSceneDark) demoShading (splat F32.zero)
                (demoPayload demoSceneDark (splat F32.one) false))
    as (_ & Hray & _ & Hdark).
  split; [vm_compute; reflexivity|].
  split; [apply Hdark; vm_compute; reflexivity|].
  rewrite Hray. reflexivity.
Defined.

Lemma generateScatterRay_zero_throughput_absorbing_witness :
  let cfg := demoConfig true true false false false 4 in
  let rayData := demoPayload demoScene (splat F32.zero) false in
  let r' := generateScatterRay cfg (demoData demoScene) demoShading
              (splat F32.zero) rayData in
  all_eq0 (thp rayData) = true /\
  all_eq0 (thp r') = true /\ terminated r' = true.
Proof.
  cbv zeta. split; [vm_compute; reflexivity|].
  apply (@generateScatterRay_zero_throughput_absorbing
           (demoCollaborators demoScene)
           (demoConfig true true false false false 4)
           (demoData demoScene) demoShading (splat F32.zero)
           (demoPayload demoScene (splat F32.zero) false)).
  - vm_compute. reflexivity.
  - vm_compute. reflexivity.
  - vm_compute. repeat split.
Defined.

Lemma handlers_ignore_pdf_and_normal_without_MIS_witness :
  let cfg := demoConfig true false true true false 4 in
  let sd := demoShadingWith F32.one (splat F32.one) in
  let rayData := demoPayload demoScene (splat F32.one) false in
  kUseMIS cfg = false /\
  Le (handleHit cfg (demoData demoScene) sd tt true
        (set_normal (splat f32_two) (set_pdf f32_max rayData))) =
  Le (handleHit cfg (demoData demoScene) sd tt true rayData).
Proof.
  cbv zeta. split; [reflexivity|].
  pose proof (@handlers_ignore_pdf_and_normal_without_MIS
                (demoCollaborators demoScene)
                (demoConfig true false true true false 4)
                (demoData demoScene)
                (demoShadingWith F32.one (splat F32.one)) tt true
                (demoPayload demoScene (splat F32.one) false)
                f32_max (splat f32_two) eq_refl) as [_ Hhit].
  apply (f_equal (Le (C := demoCollaborators demoScene))) in Hhit.
  exact Hhit.
Defined.

Lemma handleHit_path_length_bounded_witness :
  let cfg := demoConfig true true false false false 2 in
  let rayData := demoPayload demoScene (splat F32.one) false in
  let hits := [(demoShading, tt); (demoShading, tt); (demoShading, tt)] in
  (0 <= pathLength rayData <= kMaxBounces cfg /\
   kMaxBounces cfg < uint_modulus) /\
  pathLength
    (fold_left
       (fun r (h : DemoShading * unit) =>
          handleHit cfg (demoData demoScene) (fst h) (snd h) true r)
       hits rayData) = 2.
Proof.
  cbv zeta.
  split; [split; [simpl; lia | vm_compute; reflexivity]|].
  apply (@handleHit_path_length_bounded (demoCollaborators demoScene)
           (demoConfig true true false false false 2) (demoData demoScene)
           [(demoShading, tt); (demoShading, tt); (demoShading, tt)]
           (demoPayload demoScene (splat F32.one) false)
           ltac:(simpl; lia) ltac:(vm_compute; reflexivity)).
Defined.

Lemma execute_looks_up_declared_fields_witness :
  let m := SceneRenderPass.mkMembers (Some 3%nat) 0 in
  let calls := snd (SceneRenderPass.execute SceneRenderPass.demoCreate2D 1 2
                      (SceneRenderPass.demoAnswers None) m) in
  SceneRenderPass.mpSceneRenderer m <> None /\
  incl (map SceneRenderPass.fieldName SceneRenderPass.reflect)
       (SceneRenderPass.lookups calls).
Proof.
  cbv zeta. split; [discriminate|].
  apply (@execute_looks_up_declared_fields nat nat
           SceneRenderPass.demoCreate2D 1 2
           (SceneRenderPass.demoAnswers None)
           (SceneRenderPass.mkMembers (Some 3%nat) 0)).
  discriminate.
Defined.

Lemma execute_draws_iff_scene_set_witness :
  let calls :=
    snd (SceneRenderPass.execute SceneRenderPass.demoCreate2D 1 2
           (SceneRenderPass.demoAnswers (Some 5%nat))
           (SceneRenderPass.setScene (fun s : nat => Some s) None
              (SceneRenderPass.mkMembers (Some 3%nat) 0))) in
  @None nat = None /\
  ~ In SceneRenderPass.PushGraphicsState calls /\
  forall r, ~ In (SceneRenderPass.RenderScene r) calls.
Proof.
  cbv zeta. split; [reflexivity|].
  destruct (@execute_draws_iff_scene_set nat nat nat (fun s : nat => Some s)
              SceneRenderPass.demoCreate2D 1 2
              (SceneRenderPass.demoAnswers (Some 5%nat))
              (SceneRenderPass.mkMembers (Some 3%nat) 0) None)
    as [_ Hnone].
  destruct (Hnone eq_refl) as (Hpush & _ & _ & Hdraw).
  split; assumption.
Defined.
